(** * Library management: the circulation core of [app.py]

    A shallow embedding of the entity classes ([Person], [Member], [Book]),
    the JSON-file data manager ([DataManager]) and the circulation service
    ([LibrarySystem]) of [app.py], followed by the properties of the
    borrow / return state machine, of id allocation and of persistence.

    Conventions of the embedding:
    - a Python value used as an id is a [pyval]: an [int] (the service's
      own counters, the tests), a [str] (the form fields of the Flask
      routes) or [None];
    - a dictionary with a fixed set of keys is a record whose fields are
      the keys; the two collections keyed by [str(id)] are [gmap string];
    - [datetime.now()] reads a clock oracle: the n-th reading made by the
      process is [clock n], in microseconds; [isoformat()] is an injective
      rendering and is left out;
    - methods that mutate the process state are written in a state monad
      over [World]. *)

From Stdlib Require Import ZArith String Ascii List DecimalString DecimalZ.
From stdpp Require Import gmap strings list fin_maps.

Local Open Scope Z_scope.
Local Open Scope string_scope.
Local Open Scope list_scope.

(** ** Python values used as ids *)

Inductive pyval : Type :=
| PyNone
| PyInt (z : Z)
| PyStr (s : string).

Global Instance pyval_eq_dec : EqDecision pyval.
Proof. solve_decision. Defined.

(** [str(v)]: the key under which the data manager files a record. *)
Definition str (v : pyval) : string :=
  match v with
  | PyNone => "None"
  | PyInt z => NilZero.string_of_int (Z.to_int z)
  | PyStr s => s
  end.

(** [int(k)] on a dictionary key, for the plain decimal literals (an
    optional [-] and at least one digit), which are the only keys this
    program writes; [None] stands for [ValueError]. *)
Definition int (k : string) : option Z :=
  option_map Z.of_int (NilZero.int_of_string k).

(** [a != b] on ids is [a ≠ b]: values of different types are never
    equal. *)

(** ** Time *)

Definition datetime : Type := Z.

(** [timedelta(days=n)], in microseconds. *)
Definition timedelta (days : Z) : Z := days * 86400000000.

(** ** The dictionaries of the store document *)

Module BorrowRecord.
Record t : Type := mk {
  book_id : pyval;
  borrowed_date : datetime;
  due_date : datetime
}.
End BorrowRecord.

Module MemberDict.
Record t : Type := mk {
  id : Z;
  name : string;
  email : string;
  created_at : datetime;
  borrowed_books : list BorrowRecord.t;
  can_borrow_more : bool
}.
End MemberDict.

Module BookDict.
Record t : Type := mk {
  id : Z;
  title : string;
  author : string;
  isbn : string;
  category : string;
  is_available : bool;
  borrowed_by : pyval;
  added_date : datetime
}.

(** [book_data['is_available'] = v] *)
Definition set_is_available (v : bool) (d : t) : t :=
  mk (id d) (title d) (author d) (isbn d) (category d) v
     (borrowed_by d) (added_date d).

(** [book_data['borrowed_by'] = v] *)
Definition set_borrowed_by (v : pyval) (d : t) : t :=
  mk (id d) (title d) (author d) (isbn d) (category d) (is_available d)
     v (added_date d).
End BookDict.

Module Transaction.
Record t : Type := mk {
  type : string;
  member_id : pyval;
  book_id : pyval;
  date : datetime
}.
End Transaction.

Record Document : Type := mkDocument {
  books : gmap string BookDict.t;
  members : gmap string MemberDict.t;
  transactions : list Transaction.t
}.

(** [{'books': {}, 'members': {}, 'transactions': []}] *)
Definition empty_document : Document := mkDocument ∅ ∅ [].

(** ** The store file and the process state *)

(** What the store file holds, seen through [json.load]: the text of a
    document as [json.dump] writes it, or text that is not valid JSON. *)
Inductive contents : Type :=
| JsonText (d : Document)
| NotJson (raw : string).

Inductive exn : Type :=
| JSONDecodeError
| ValueError.

Inductive result (A : Type) : Type :=
| Ok (a : A)
| Raise (e : exn).
Arguments Ok {A} a.
Arguments Raise {A} e.

(** The process: the clock, the file [library_data.json] ([None] when
    [os.path.exists] is false), and the one [LibrarySystem] object with
    its [DataManager] ([data] is [data_manager.data]). *)
Record World : Type := mkWorld {
  clock : nat → datetime;
  clock_reads : nat;
  data_file : option contents;
  data : Document;
  _next_book_id : Z;
  _next_member_id : Z
}.

(** ** The state monad of the methods *)

Definition Py (A : Type) : Type := World → A * World.

Definition ret {A} (a : A) : Py A := fun w => (a, w).

Definition bind {A B} (c : Py A) (k : A → Py B) : Py B :=
  fun w => let (a, w') := c w in k a w'.

Notation "x <- c ;; k" := (bind c (fun x => k))
  (at level 100, c at next level, right associativity).
Notation "c ;;; k" := (bind c (fun _ => k))
  (at level 100, right associativity).

Definition get : Py World := fun w => (w, w).

(** [datetime.now()] *)
Definition now : Py datetime :=
  fun w => (clock w (clock_reads w),
            mkWorld (clock w) (S (clock_reads w)) (data_file w) (data w)
                    (_next_book_id w) (_next_member_id w)).

Definition set_data (d : Document) : Py unit :=
  fun w => (tt, mkWorld (clock w) (clock_reads w) (data_file w) d
                        (_next_book_id w) (_next_member_id w)).

Definition set_data_file (f : option contents) : Py unit :=
  fun w => (tt, mkWorld (clock w) (clock_reads w) f (data w)
                        (_next_book_id w) (_next_member_id w)).

Definition set_next_book_id (n : Z) : Py unit :=
  fun w => (tt, mkWorld (clock w) (clock_reads w) (data_file w) (data w)
                        n (_next_member_id w)).

Definition set_next_member_id (n : Z) : Py unit :=
  fun w => (tt, mkWorld (clock w) (clock_reads w) (data_file w) (data w)
                        (_next_book_id w) n).

(** ** Entities *)

(** [class Member(Person)], with the fields of [Person] inlined. *)
Module Member.
Record t : Type := mk {
  _person_id : Z;
  _name : string;
  _email : string;
  _created_at : datetime;
  _borrowed_books : list BorrowRecord.t;
  _max_books : nat
}.

(** [Member.__init__], which runs [Person.__init__]: one clock read. *)
Definition __init__ (member_id : Z) (name email : string) : Py t :=
  created_at <- now ;;
  ret (mk member_id name email created_at [] 3%nat).

(** [member._borrowed_books = l] *)
Definition set_borrowed_books (l : list BorrowRecord.t) (self : t) : t :=
  mk (_person_id self) (_name self) (_email self) (_created_at self) l
     (_max_books self).

Definition can_borrow (self : t) : bool :=
  (length (_borrowed_books self) <? _max_books self)%nat.

(** The two fields of the appended record come from two successive
    clock reads. *)
Definition borrow_book (self : t) (book_id : pyval) : Py (bool * t) :=
  if can_borrow self then
    borrowed <- now ;;
    due <- now ;;
    ret (true,
         set_borrowed_books
           (_borrowed_books self ++
            [BorrowRecord.mk book_id borrowed (due + timedelta 14)])
           self)
  else ret (false, self).

Definition return_book (self : t) (book_id : pyval) : t :=
  set_borrowed_books
    (filter (λ b, BorrowRecord.book_id b ≠ book_id) (_borrowed_books self))
    self.

Definition get_borrowed_books (self : t) : list BorrowRecord.t :=
  _borrowed_books self.

(** [get_info()] extended by [to_dict()]. *)
Definition to_dict (self : t) : MemberDict.t :=
  MemberDict.mk (_person_id self) (_name self) (_email self)
                (_created_at self) (_borrowed_books self) (can_borrow self).
End Member.

Module Book.
Record t : Type := mk {
  _book_id : Z;
  _title : string;
  _author : string;
  _isbn : string;
  _category : string;
  _is_available : bool;
  _borrowed_by : pyval;
  _added_date : datetime
}.

Definition __init__ (book_id : Z) (title author isbn category : string)
  : Py t :=
  added_date <- now ;;
  ret (mk book_id title author isbn category true PyNone added_date).

Definition borrow (self : t) (member_id : pyval) : bool * t :=
  if _is_available self then
    (true, mk (_book_id self) (_title self) (_author self) (_isbn self)
              (_category self) false member_id (_added_date self))
  else (false, self).

Definition return_book (self : t) : t :=
  mk (_book_id self) (_title self) (_author self) (_isbn self)
     (_category self) true PyNone (_added_date self).

Definition to_dict (self : t) : BookDict.t :=
  BookDict.mk (_book_id self) (_title self) (_author self) (_isbn self)
              (_category self) (_is_available self) (_borrowed_by self)
              (_added_date self).
End Book.

(** ** The data manager *)

Module DataManager.
(** [os.path.exists], then [json.load], which raises on text that is
    not JSON; nothing catches it. *)
Definition _load_data (file : option contents) : result Document :=
  match file with
  | Some (JsonText d) => Ok d
  | Some (NotJson _) => Raise JSONDecodeError
  | None => Ok empty_document
  end.

(** The whole document is written out. *)
Definition _save_data : Py unit :=
  w <- get ;;
  set_data_file (Some (JsonText (data w))).

Definition set_books (b : gmap string BookDict.t) : Py unit :=
  w <- get ;;
  set_data (mkDocument b (members (data w)) (transactions (data w))).

Definition set_members (m : gmap string MemberDict.t) : Py unit :=
  w <- get ;;
  set_data (mkDocument (books (data w)) m (transactions (data w))).

Definition set_transactions (l : list Transaction.t) : Py unit :=
  w <- get ;;
  set_data (mkDocument (books (data w)) (members (data w)) l).

Definition add_book (book : Book.t) : Py unit :=
  w <- get ;;
  set_books (<[str (PyInt (Book._book_id book)) := Book.to_dict book]>
               (books (data w))) ;;;
  _save_data.

Definition add_member (member : Member.t) : Py unit :=
  w <- get ;;
  set_members (<[str (PyInt (Member._person_id member))
                 := Member.to_dict member]> (members (data w))) ;;;
  _save_data.

Definition get_all_books : Py (gmap string BookDict.t) :=
  w <- get ;; ret (books (data w)).

Definition get_all_members : Py (gmap string MemberDict.t) :=
  w <- get ;; ret (members (data w)).

Definition get_book (book_id : pyval) : Py (option BookDict.t) :=
  w <- get ;; ret (books (data w) !! str book_id).

Definition get_member (member_id : pyval) : Py (option MemberDict.t) :=
  w <- get ;; ret (members (data w) !! str member_id).

Definition update_book (book_id : pyval) (book_data : BookDict.t)
  : Py unit :=
  w <- get ;;
  set_books (<[str book_id := book_data]> (books (data w))) ;;;
  _save_data.

Definition update_member (member_id : pyval) (member_data : MemberDict.t)
  : Py unit :=
  w <- get ;;
  set_members (<[str member_id := member_data]> (members (data w))) ;;;
  _save_data.

Definition add_transaction (transaction : Transaction.t) : Py unit :=
  w <- get ;;
  set_transactions (transactions (data w) ++ [transaction]) ;;;
  _save_data.
End DataManager.

(** ** The circulation service *)

(** [max(x :: xs)] *)
Definition max (x : Z) (xs : list Z) : Z := fold_left Z.max xs x.

Module LibrarySystem.
(** [existing_ids = [int(k) for k in collection.keys()]], then
    [max(existing_ids) + 1 if existing_ids else 1]. *)
Definition _get_next_id {V} (collection : gmap string V) : result Z :=
  match mapM int (map_to_list collection).*1 with
  | None => Raise ValueError
  | Some [] => Ok 1
  | Some (x :: xs) => Ok (max x xs + 1)
  end.

(** [LibrarySystem()]: the data manager loads the file, then the two
    counters are computed, once. *)
Definition __init__ (clock : nat → datetime) (file : option contents)
  : result World :=
  match DataManager._load_data file with
  | Raise e => Raise e
  | Ok d =>
      match _get_next_id (books d) with
      | Raise e => Raise e
      | Ok next_book_id =>
          match _get_next_id (members d) with
          | Raise e => Raise e
          | Ok next_member_id =>
              Ok (mkWorld clock 0 file d next_book_id next_member_id)
          end
      end
  end.

Definition add_book (title author isbn category : string) : Py Book.t :=
  w <- get ;;
  book <- Book.__init__ (_next_book_id w) title author isbn category ;;
  DataManager.add_book book ;;;
  set_next_book_id (_next_book_id w + 1) ;;;
  ret book.

Definition add_member (name email : string) : Py Member.t :=
  w <- get ;;
  member <- Member.__init__ (_next_member_id w) name email ;;
  DataManager.add_member member ;;;
  set_next_member_id (_next_member_id w + 1) ;;;
  ret member.

Definition borrow_book (member_id book_id : pyval) : Py (bool * string) :=
  member_data <- DataManager.get_member member_id ;;
  book_data <- DataManager.get_book book_id ;;
  match member_data, book_data with
  | Some member_data, Some book_data =>
      if negb (BookDict.is_available book_data) then
        ret (false, "Book is not available")
      else
        member <- Member.__init__ (MemberDict.id member_data)
                    (MemberDict.name member_data)
                    (MemberDict.email member_data) ;;
        let member :=
          Member.set_borrowed_books
            (MemberDict.borrowed_books member_data) member in
        if negb (Member.can_borrow member) then
          ret (false, "Member has reached borrowing limit")
        else
          let book_data := BookDict.set_is_available false book_data in
          let book_data := BookDict.set_borrowed_by member_id book_data in
          DataManager.update_book book_id book_data ;;;
          borrowed <- Member.borrow_book member book_id ;;
          let member := snd borrowed in
          DataManager.update_member member_id (Member.to_dict member) ;;;
          date <- now ;;
          DataManager.add_transaction
            (Transaction.mk "borrow" member_id book_id date) ;;;
          ret (true, "Book borrowed successfully")
  | _, _ => ret (false, "Member or book not found")
  end.

Definition return_book (member_id book_id : pyval) : Py (bool * string) :=
  member_data <- DataManager.get_member member_id ;;
  book_data <- DataManager.get_book book_id ;;
  match member_data, book_data with
  | Some member_data, Some book_data =>
      let book_data := BookDict.set_is_available true book_data in
      let book_data := BookDict.set_borrowed_by PyNone book_data in
      DataManager.update_book book_id book_data ;;;
      member <- Member.__init__ (MemberDict.id member_data)
                  (MemberDict.name member_data)
                  (MemberDict.email member_data) ;;
      let member :=
        Member.set_borrowed_books
          (MemberDict.borrowed_books member_data) member in
      let member := Member.return_book member book_id in
      DataManager.update_member member_id (Member.to_dict member) ;;;
      date <- now ;;
      DataManager.add_transaction
        (Transaction.mk "return" member_id book_id date) ;;;
      ret (true, "Book returned successfully")
  | _, _ => ret (false, "Member or book not found")
  end.
End LibrarySystem.

(** ** The routes *)

(** What a view function receives: a [GET], or a [POST] with the two
    fields of the form, which are text. *)
Inductive request : Type :=
| GET
| POST (member_id book_id : string).

(** What it answers: a flashed message with its category, followed by a
    redirect, or a page rendered from the two collections it is given. *)
Inductive response : Type :=
| Flash (message category : string)
| Page (books : gmap string BookDict.t) (members : gmap string MemberDict.t).

Module App.
(** [index()]: the three figures handed to the template. *)
Definition index : Py (nat * nat * nat) :=
  books <- DataManager.get_all_books ;;
  members <- DataManager.get_all_members ;;
  let total_books := size books in
  let available_books :=
    length (filter (λ b, BookDict.is_available b = true)
                   (map_to_list books).*2) in
  let total_members := size members in
  ret (total_books, available_books, total_members).

(** [borrow_book()], the view of [/borrow]. *)
Definition borrow_book (req : request) : Py response :=
  match req with
  | POST member_id book_id =>
      result <- LibrarySystem.borrow_book (PyStr member_id) (PyStr book_id) ;;
      ret (Flash (snd result) (if fst result then "success" else "error"))
  | GET =>
      books <- DataManager.get_all_books ;;
      members <- DataManager.get_all_members ;;
      let available_books :=
        filter (λ kv, BookDict.is_available kv.2 = true) books in
      ret (Page available_books members)
  end.

(** [return_book()], the view of [/return]. *)
Definition return_book (req : request) : Py response :=
  match req with
  | POST member_id book_id =>
      result <- LibrarySystem.return_book (PyStr member_id) (PyStr book_id) ;;
      ret (Flash (snd result) (if fst result then "success" else "error"))
  | GET =>
      books <- DataManager.get_all_books ;;
      members <- DataManager.get_all_members ;;
      let borrowed_books :=
        filter (λ kv, ¬ BookDict.is_available kv.2 = true) books in
      ret (Page borrowed_books members)
  end.

(** [get_member_books(member_id)], the JSON answer of
    [/api/member/<int:member_id>/books]. *)
Definition get_member_books (member_id : Z) : Py (list BorrowRecord.t) :=
  member_data <- DataManager.get_member (PyInt member_id) ;;
  match member_data with
  | Some member_data => ret (MemberDict.borrowed_books member_data)
  | None => ret []
  end.
End App.

(** ** Sequences of service calls *)

Inductive call : Type :=
| AddBook (title author isbn category : string)
| AddMember (name email : string)
| BorrowBook (member_id book_id : pyval)
| ReturnBook (member_id book_id : pyval).

(** The state after one call; the value returned to the caller is
    dropped. *)
Definition step (w : World) (c : call) : World :=
  match c with
  | AddBook title author isbn category =>
      snd (LibrarySystem.add_book title author isbn category w)
  | AddMember name email => snd (LibrarySystem.add_member name email w)
  | BorrowBook member_id book_id =>
      snd (LibrarySystem.borrow_book member_id book_id w)
  | ReturnBook member_id book_id =>
      snd (LibrarySystem.return_book member_id book_id w)
  end.

Definition run (w : World) (cs : list call) : World := fold_left step cs w.

(** The service constructed when there is no store file yet. *)
Definition fresh (clock : nat → datetime) : World :=
  mkWorld clock 0 None empty_document 1 1.

(** [w] is the state of a service started on no store after some calls. *)
Definition reachable (w : World) : Prop :=
  ∃ clock cs, w = run (fresh clock) cs.

(** * Vocabulary of the statements *)

(** ** The outcome of each call *)

(** The state once document [d] has been written out, after [reads]
    clock readings in all. *)
Definition saved (w : World) (d : Document) (reads : nat) : World :=
  mkWorld (clock w) reads (Some (JsonText d)) d
          (_next_book_id w) (_next_member_id w).

(** The entities built by [add_book] and [add_member] in state [w]. *)
Definition new_book (w : World) (title author isbn category : string)
  : Book.t :=
  Book.mk (_next_book_id w) title author isbn category true PyNone
          (clock w (clock_reads w)).

Definition new_member (w : World) (name email : string) : Member.t :=
  Member.mk (_next_member_id w) name email (clock w (clock_reads w)) [] 3.

(** The member dictionary written back by a successful borrow. *)
Definition borrowed_member (w : World) (book_id : pyval)
  (member_data : MemberDict.t) : MemberDict.t :=
  let n := clock_reads w in
  let l := MemberDict.borrowed_books member_data ++
           [BorrowRecord.mk book_id (clock w (S n))
                            (clock w (S (S n)) + timedelta 14)] in
  MemberDict.mk (MemberDict.id member_data) (MemberDict.name member_data)
                (MemberDict.email member_data) (clock w n) l
                (length l <? 3)%nat.

(** The book dictionary written back by a successful borrow. *)
Definition lent_book (member_id : pyval) (book_data : BookDict.t)
  : BookDict.t :=
  BookDict.set_borrowed_by member_id
    (BookDict.set_is_available false book_data).

Definition borrowed_document (w : World) (member_id book_id : pyval)
  (member_data : MemberDict.t) (book_data : BookDict.t) : Document :=
  mkDocument
    (<[str book_id := lent_book member_id book_data]> (books (data w)))
    (<[str member_id := borrowed_member w book_id member_data]>
       (members (data w)))
    (transactions (data w) ++
     [Transaction.mk "borrow" member_id book_id
                     (clock w (3 + clock_reads w)%nat)]).

(** The member dictionary written back by a return. *)
Definition returned_member (w : World) (book_id : pyval)
  (member_data : MemberDict.t) : MemberDict.t :=
  let l := filter (λ b, BorrowRecord.book_id b ≠ book_id)
                  (MemberDict.borrowed_books member_data) in
  MemberDict.mk (MemberDict.id member_data) (MemberDict.name member_data)
                (MemberDict.email member_data) (clock w (clock_reads w)) l
                (length l <? 3)%nat.

(** The book dictionary written back by a return. *)
Definition shelved_book (book_data : BookDict.t) : BookDict.t :=
  BookDict.set_borrowed_by PyNone (BookDict.set_is_available true book_data).

Definition returned_document (w : World) (member_id book_id : pyval)
  (member_data : MemberDict.t) (book_data : BookDict.t) : Document :=
  mkDocument
    (<[str book_id := shelved_book book_data]> (books (data w)))
    (<[str member_id := returned_member w book_id member_data]>
       (members (data w)))
    (transactions (data w) ++
     [Transaction.mk "return" member_id book_id
                     (clock w (S (clock_reads w)))]).

(** The document after each call, by cases on what the call finds. *)
Inductive step_spec (w : World) : call → Document → Prop :=
| step_add_book title author isbn category :
    step_spec w (AddBook title author isbn category)
      (mkDocument
         (<[str (PyInt (_next_book_id w)) :=
              Book.to_dict (new_book w title author isbn category)]>
            (books (data w)))
         (members (data w)) (transactions (data w)))
| step_add_member name email :
    step_spec w (AddMember name email)
      (mkDocument (books (data w))
         (<[str (PyInt (_next_member_id w)) :=
              Member.to_dict (new_member w name email)]>
            (members (data w)))
         (transactions (data w)))
| step_borrow member_id book_id member_data book_data :
    members (data w) !! str member_id = Some member_data →
    books (data w) !! str book_id = Some book_data →
    BookDict.is_available book_data = true →
    (length (MemberDict.borrowed_books member_data) < 3)%nat →
    step_spec w (BorrowBook member_id book_id)
      (borrowed_document w member_id book_id member_data book_data)
| step_borrow_refused member_id book_id :
    step_spec w (BorrowBook member_id book_id) (data w)
| step_return member_id book_id member_data book_data :
    members (data w) !! str member_id = Some member_data →
    books (data w) !! str book_id = Some book_data →
    step_spec w (ReturnBook member_id book_id)
      (returned_document w member_id book_id member_data book_data)
| step_return_refused member_id book_id :
    members (data w) !! str member_id = None ∨
    books (data w) !! str book_id = None →
    step_spec w (ReturnBook member_id book_id) (data w).

(** Every case of a call, with the document it leaves. *)
Ltac step_cases H :=
  destruct H as [title author isbn category
                |name email
                |m b mr bk Hm Hb Hav Hlen
                |m b
                |m b mr bk Hm Hb
                |m b Hmiss].

(** ** Sample runs *)

(** A clock that advances by one microsecond at every reading. *)
Definition tick : nat → datetime := Z.of_nat.

(** One book, one member, one loan. *)
Definition one_loan : list call :=
  [AddBook "T" "A" "ISBN1" "General"; AddMember "Ann" "ann@example.com";
   BorrowBook (PyInt 1) (PyInt 1)].

(** Ann borrows book 1, Bob returns it, Ann borrows it again. *)
Definition returned_by_another : list call :=
  [AddBook "T" "A" "ISBN1" "General"; AddMember "Ann" "ann@example.com";
   AddMember "Bob" "bob@example.com"; BorrowBook (PyInt 1) (PyInt 1);
   ReturnBook (PyInt 2) (PyInt 1); BorrowBook (PyInt 1) (PyInt 1)].

(** Two members and one book, lent to Ann. *)
Definition lent_to_ann : list call :=
  [AddBook "T" "A" "ISBN1" "General"; AddMember "Ann" "ann@example.com";
   AddMember "Bob" "bob@example.com"; BorrowBook (PyInt 1) (PyInt 1)].

(** Ann borrows and returns book 1, then Bob borrows it. *)
Definition lent_in_turn : list call :=
  [AddBook "T" "A" "ISBN1" "General"; AddMember "Ann" "ann@example.com";
   AddMember "Bob" "bob@example.com"; BorrowBook (PyInt 1) (PyInt 1);
   ReturnBook (PyInt 1) (PyInt 1); BorrowBook (PyInt 2) (PyInt 1)].

(** Ann borrows book 1 and returns it as ["1"], then borrows it again. *)
Definition returned_as_text : list call :=
  [AddBook "T" "A" "ISBN1" "General"; AddMember "Ann" "ann@example.com";
   BorrowBook (PyInt 1) (PyInt 1); ReturnBook (PyInt 1) (PyStr "1");
   BorrowBook (PyInt 1) (PyInt 1)].

(** ** Invariants of a run *)

(** Flag and borrower of a book tell the same story. *)
Definition flags_agree (book_data : BookDict.t) : Prop :=
  BookDict.is_available book_data = false ↔
  BookDict.borrowed_by book_data ≠ PyNone.

(** The flags agree on every book, and no member is filed under the key
    of [None]. *)
Definition flags_inv (d : Document) : Prop :=
  map_Forall (λ _ book_data, flags_agree book_data) (books d) ∧
  members d !! "None" = None.

(** No member holds more than three books. *)
Definition within_limit (d : Document) : Prop :=
  map_Forall (λ _ member_data,
                (length (MemberDict.borrowed_books member_data) ≤ 3)%nat)
             (members d).

(** ** Frame and call discipline *)

(** From [w] to [w'] only the book filed under [str(book_id)] and the
    member filed under [str(member_id)] may differ, and the transaction
    log grows by at most one entry at its end. *)
Definition frame (w w' : World) (member_id book_id : pyval) : Prop :=
  (∀ k, k ≠ str book_id → books (data w') !! k = books (data w) !! k) ∧
  (∀ k, k ≠ str member_id →
        members (data w') !! k = members (data w) !! k) ∧
  (∃ l, transactions (data w') = transactions (data w) ++ l ∧
        (length l ≤ 1)%nat).

(** The book ids passed by the calls of a sequence. *)
Definition book_ids (cs : list call) : list pyval :=
  flat_map (λ c, match c with
                 | BorrowBook _ book_id | ReturnBook _ book_id => [book_id]
                 | _ => []
                 end) cs.

(** Each book is always named by the same value: never by [1] in one
    call and by ["1"] in another. *)
Definition one_spelling (ids : list pyval) : Prop :=
  Forall (λ x, Forall (λ y, str x = str y → x = y) ids) ids.

(** A return that will go through, for a book that is on loan, names the
    member record the book is lent to. *)
Definition returned_by_holder (w : World) (c : call) : Prop :=
  match c with
  | ReturnBook member_id book_id =>
      match members (data w) !! str member_id,
            books (data w) !! str book_id with
      | Some _, Some book_data =>
          BookDict.is_available book_data = false →
          str (BookDict.borrowed_by book_data) = str member_id
      | _, _ => True
      end
  | _ => True
  end.

(** Every call of the sequence is made that way, in the state it
    finds. *)
Fixpoint disciplined (w : World) (cs : list call) : Prop :=
  match cs with
  | [] => True
  | c :: cs' => returned_by_holder w c ∧ disciplined (step w c) cs'
  end.

(** Book keys are the renderings of the ids already handed out. *)
Definition book_keys_below (w : World) : Prop :=
  ∀ k, is_Some (books (data w) !! k) →
       ∃ z, k = str (PyInt z) ∧ z < _next_book_id w.

(** Every entry of a member's list names, in a known spelling, a book
    that is on loan to that very member record. *)
Definition held (ids : list pyval) (d : Document) : Prop :=
  ∀ km member_data r,
    members d !! km = Some member_data →
    r ∈ MemberDict.borrowed_books member_data →
    BorrowRecord.book_id r ∈ ids ∧
    ∃ book_data,
      books d !! str (BorrowRecord.book_id r) = Some book_data ∧
      BookDict.is_available book_data = false ∧
      str (BookDict.borrowed_by book_data) = km.

(** No member's list names a book twice. *)
Definition distinct_book_ids (d : Document) : Prop :=
  ∀ km member_data,
    members d !! km = Some member_data →
    NoDup (BorrowRecord.book_id <$> MemberDict.borrowed_books member_data).

(** What a disciplined run keeps. *)
Definition holdings_inv (ids : list pyval) (w : World) : Prop :=
  book_keys_below w ∧ held ids (data w) ∧ distinct_book_ids (data w).

(** ** Id allocation *)

(** [n] is one more than the greatest id among the keys, or 1 when
    there is no key. *)
Definition is_next_id {V} (collection : gmap string V) (n : Z) : Prop :=
  (collection = ∅ ∧ n = 1) ∨
  (∃ k z, is_Some (collection !! k) ∧ int k = Some z ∧ n = z + 1 ∧
          ∀ k' z', is_Some (collection !! k') → int k' = Some z' →
                  (z' ≤ z)%Z).

(** Every key reads as an integer, as the keys written by the service
    do. *)
Definition keys_are_ids {V} (collection : gmap string V) : Prop :=
  map_Forall (λ k _, is_Some (int k)) collection.

Global Instance keys_are_ids_dec {V} (collection : gmap string V) :
  Decision (keys_are_ids collection).
Proof. unfold keys_are_ids. apply _. Defined.

(** ** More sample runs *)

(** Ann holds books 1, 2 and 3; book 4 is on the shelf. *)
Definition three_loans : list call :=
  [AddBook "T1" "A" "I1" "General"; AddBook "T2" "A" "I2" "General";
   AddBook "T3" "A" "I3" "General"; AddBook "T4" "A" "I4" "General";
   AddMember "Ann" "ann@example.com";
   BorrowBook (PyInt 1) (PyInt 1); BorrowBook (PyInt 1) (PyInt 2);
   BorrowBook (PyInt 1) (PyInt 3)].

(** One book and one member, nothing lent. *)
Definition stocked : list call :=
  [AddBook "T" "A" "ISBN1" "General"; AddMember "Ann" "ann@example.com"].

(** The records these runs leave on file. *)
Definition ann_new : MemberDict.t :=
  MemberDict.mk 1 "Ann" "ann@example.com" 1 [] true.

Definition book1_new : BookDict.t :=
  BookDict.mk 1 "T" "A" "ISBN1" "General" true PyNone 0.

Definition ann_with_three : MemberDict.t :=
  MemberDict.mk 1 "Ann" "ann@example.com" 13
    [BorrowRecord.mk (PyInt 1) 6 (7 + timedelta 14);
     BorrowRecord.mk (PyInt 2) 10 (11 + timedelta 14);
     BorrowRecord.mk (PyInt 3) 14 (15 + timedelta 14)] false.

Definition book4_new : BookDict.t :=
  BookDict.mk 4 "T4" "A" "I4" "General" true PyNone 3.

(** ** Loans *)

(** Every book that is out is in the list of the member it is lent
    to. *)
Definition loans_listed (d : Document) : Prop :=
  ∀ kb book_data,
    books d !! kb = Some book_data →
    BookDict.is_available book_data = false →
    ∃ member_data r,
      members d !! str (BookDict.borrowed_by book_data) = Some member_data ∧
      r ∈ MemberDict.borrowed_books member_data ∧
      str (BorrowRecord.book_id r) = kb.

(** ** Catalogue and log *)

(** The ids below [next] are all in use, each filing its record under
    its own rendering, and nothing else is filed. *)
Definition ids_in_use {V} (id_of : V → Z) (collection : gmap string V)
  (next : Z) : Prop :=
  (1 ≤ next)%Z ∧
  (∀ k v, collection !! k = Some v →
          k = str (PyInt (id_of v)) ∧ (1 ≤ id_of v < next)%Z) ∧
  (∀ z, (1 ≤ z < next)%Z → is_Some (collection !! str (PyInt z))).

Definition catalogue_inv (w : World) : Prop :=
  ids_in_use BookDict.id (books (data w)) (_next_book_id w) ∧
  ids_in_use MemberDict.id (members (data w)) (_next_member_id w).

(** The fields of a book that describe it. *)
Definition same_book (a b : BookDict.t) : Prop :=
  BookDict.id a = BookDict.id b ∧ BookDict.title a = BookDict.title b ∧
  BookDict.author a = BookDict.author b ∧ BookDict.isbn a = BookDict.isbn b ∧
  BookDict.category a = BookDict.category b ∧
  BookDict.added_date a = BookDict.added_date b.

(** The fields of a member that identify it. *)
Definition same_member (a b : MemberDict.t) : Prop :=
  MemberDict.id a = MemberDict.id b ∧ MemberDict.name a = MemberDict.name b ∧
  MemberDict.email a = MemberDict.email b.

(** The stored [can_borrow_more] says what the list says. *)
Definition can_borrow_more_current (d : Document) : Prop :=
  map_Forall (λ _ member_data,
                MemberDict.can_borrow_more member_data =
                (length (MemberDict.borrowed_books member_data) <? 3)%nat)
             (members d).

(** Every logged transaction is a borrow or a return between a member
    and a book that are on file. *)
Definition log_sound (d : Document) : Prop :=
  Forall (λ t, (Transaction.type t = "borrow" ∨
                Transaction.type t = "return") ∧
               is_Some (members d !! str (Transaction.member_id t)) ∧
               is_Some (books d !! str (Transaction.book_id t)))
         (transactions d).

(** [member.borrow_book(b)] for each [b] of a list in turn, with the
    answers. *)
Fixpoint borrow_each (self : Member.t) (book_ids : list pyval)
  : Py (list bool * Member.t) :=
  match book_ids with
  | [] => ret ([], self)
  | book_id :: rest =>
      borrowed <- Member.borrow_book self book_id ;;
      others <- borrow_each (snd borrowed) rest ;;
      ret (fst borrowed :: fst others, snd others)
  end.

(** * Properties *)

(** ** Ids and keys *)

Example str_of_ids :
  str (PyInt 10) = "10" ∧ str (PyInt 0) = "0" ∧ str (PyInt (-3)) = "-3" ∧
  str (PyStr "10") = "10" ∧ str PyNone = "None".
Proof. by repeat split. Qed.

Example int_of_keys :
  int "10" = Some 10 ∧ int "-3" = Some (-3) ∧ int "007" = Some 7 ∧
  int EmptyString = None ∧ int "-" = None ∧ int "None" = None.
Proof. by repeat split. Qed.

Lemma int_str (z : Z) : int (str (PyInt z)) = Some z.
Proof.
  unfold int, str.
  destruct (decide (z = 0)) as [->|Hz]; [reflexivity|].
  rewrite NilZero.isi.
  - simpl. f_equal. apply DecimalZ.of_to.
  - intros H. apply Hz. rewrite <- (DecimalZ.of_to z), H. reflexivity.
  - intros H. apply Hz. rewrite <- (DecimalZ.of_to z), H. reflexivity.
Qed.

Lemma str_int_inj (y z : Z) : str (PyInt y) = str (PyInt z) → y = z.
Proof.
  intros H. apply (f_equal int) in H. rewrite !int_str in H. congruence.
Qed.

Lemma str_int_not_None (z : Z) : str (PyInt z) ≠ "None".
Proof.
  intros H. apply (f_equal int) in H. rewrite int_str in H. discriminate H.
Qed.

(** ** Lists *)

Lemma filter_keeps_all {A} (P : A → Prop) `{!∀ x, Decision (P x)}
  (l : list A) :
  (∀ x, x ∈ l → P x) → filter P l = l.
Proof.
  induction l as [|x l IH]; intros Hall; [reflexivity|].
  rewrite filter_cons_True by (apply Hall; left).
  f_equal. apply IH. intros y Hy. apply Hall. by right.
Qed.

(** ** The four service calls in closed form *)

Lemma add_book_eq title author isbn category w :
  LibrarySystem.add_book title author isbn category w =
  let book := new_book w title author isbn category in
  let d := mkDocument
             (<[str (PyInt (_next_book_id w)) := Book.to_dict book]>
                (books (data w)))
             (members (data w)) (transactions (data w)) in
  (book, mkWorld (clock w) (S (clock_reads w)) (Some (JsonText d)) d
                 (_next_book_id w + 1) (_next_member_id w)).
Proof. reflexivity. Qed.

Lemma add_member_eq name email w :
  LibrarySystem.add_member name email w =
  let member := new_member w name email in
  let d := mkDocument (books (data w))
             (<[str (PyInt (_next_member_id w)) := Member.to_dict member]>
                (members (data w)))
             (transactions (data w)) in
  (member, mkWorld (clock w) (S (clock_reads w)) (Some (JsonText d)) d
                   (_next_book_id w) (_next_member_id w + 1)).
Proof. reflexivity. Qed.

Lemma borrow_book_eq member_id book_id w :
  LibrarySystem.borrow_book member_id book_id w =
  match members (data w) !! str member_id, books (data w) !! str book_id with
  | Some member_data, Some book_data =>
      if BookDict.is_available book_data then
        if (length (MemberDict.borrowed_books member_data) <? 3)%nat then
          ((true, "Book borrowed successfully"),
           saved w (borrowed_document w member_id book_id member_data
                                      book_data)
                 (4 + clock_reads w)%nat)
        else
          ((false, "Member has reached borrowing limit"),
           mkWorld (clock w) (S (clock_reads w)) (data_file w) (data w)
                   (_next_book_id w) (_next_member_id w))
      else ((false, "Book is not available"), w)
  | _, _ => ((false, "Member or book not found"), w)
  end.
Proof.
  unfold LibrarySystem.borrow_book, DataManager.get_member,
    DataManager.get_book, bind, get, ret.
  destruct (members (data w) !! str member_id) as [member_data|];
    [|reflexivity].
  destruct (books (data w) !! str book_id) as [book_data|]; [|reflexivity].
  destruct (BookDict.is_available book_data); [|reflexivity].
  cbn -[Nat.ltb timedelta].
  unfold Member.can_borrow. cbn -[Nat.ltb timedelta].
  destruct (length (MemberDict.borrowed_books member_data) <? 3)%nat
    eqn:Hlen; cbn -[Nat.ltb timedelta]; [|reflexivity].
  unfold Member.borrow_book, Member.can_borrow, bind, ret.
  cbn -[Nat.ltb timedelta]. rewrite Hlen. reflexivity.
Qed.

Lemma return_book_eq member_id book_id w :
  LibrarySystem.return_book member_id book_id w =
  match members (data w) !! str member_id, books (data w) !! str book_id with
  | Some member_data, Some book_data =>
      ((true, "Book returned successfully"),
       saved w (returned_document w member_id book_id member_data book_data)
             (2 + clock_reads w)%nat)
  | _, _ => ((false, "Member or book not found"), w)
  end.
Proof.
  unfold LibrarySystem.return_book, DataManager.get_member,
    DataManager.get_book, bind, get, ret.
  destruct (members (data w) !! str member_id) as [member_data|];
    [|reflexivity].
  destruct (books (data w) !! str book_id) as [book_data|]; reflexivity.
Qed.

Lemma step_sound w c : step_spec w c (data (step w c)).
Proof.
  destruct c as [title author isbn category|name email|m b|m b]; cbn [step].
  - rewrite add_book_eq. constructor.
  - rewrite add_member_eq. constructor.
  - rewrite borrow_book_eq.
    destruct (members (data w) !! str m) as [mr|] eqn:Hm;
      [|apply step_borrow_refused].
    destruct (books (data w) !! str b) as [bk|] eqn:Hb;
      [|apply step_borrow_refused].
    destruct (BookDict.is_available bk) eqn:Hav;
      [|apply step_borrow_refused].
    destruct (length (MemberDict.borrowed_books mr) <? 3)%nat eqn:Hlen;
      cbn [snd data saved]; [|apply step_borrow_refused].
    apply step_borrow; auto. by apply Nat.ltb_lt.
  - rewrite return_book_eq.
    destruct (members (data w) !! str m) as [mr|] eqn:Hm;
      [|apply step_return_refused; by left].
    destruct (books (data w) !! str b) as [bk|] eqn:Hb;
      [|apply step_return_refused; by right].
    cbn [snd data saved]. by apply step_return.
Qed.

Lemma step_next_book_id w c :
  _next_book_id (step w c) =
  match c with AddBook _ _ _ _ => _next_book_id w + 1 | _ => _next_book_id w end.
Proof.
  destruct c as [title author isbn category|name email|m b|m b]; cbn [step].
  - by rewrite add_book_eq.
  - by rewrite add_member_eq.
  - rewrite borrow_book_eq. by repeat case_match.
  - rewrite return_book_eq. by repeat case_match.
Qed.

Lemma step_next_member_id w c :
  _next_member_id (step w c) =
  match c with AddMember _ _ => _next_member_id w + 1 | _ => _next_member_id w end.
Proof.
  destruct c as [title author isbn category|name email|m b|m b]; cbn [step].
  - by rewrite add_book_eq.
  - by rewrite add_member_eq.
  - rewrite borrow_book_eq. by repeat case_match.
  - rewrite return_book_eq. by repeat case_match.
Qed.

(** A property of the state kept by every call holds after any sequence
    of calls. *)
Lemma run_invariant (P : World → Prop) :
  (∀ w c, P w → P (step w c)) → ∀ cs w, P w → P (run w cs).
Proof.
  intros Hstep cs. induction cs as [|c cs IH]; intros w Hw; simpl; auto.
Qed.

Lemma reachable_ind_inv (P : World → Prop) :
  (∀ clock, P (fresh clock)) → (∀ w c, P w → P (step w c)) →
  ∀ w, reachable w → P w.
Proof.
  intros Hfresh Hstep w (clock & cs & ->). by apply run_invariant.
Qed.

(** ** Availability flag and borrower (C1) *)

Lemma present_not_None {V} (coll : gmap string V) (v : pyval) (x : V) :
  coll !! "None" = None → coll !! str v = Some x →
  v ≠ PyNone ∧ str v ≠ "None".
Proof.
  intros Hnone Hv. split; intros E.
  - subst v. simpl in Hv. congruence.
  - rewrite E in Hv. congruence.
Qed.

Lemma flags_inv_empty : flags_inv empty_document.
Proof. split; [apply map_Forall_empty|apply lookup_empty]. Qed.

Lemma flags_inv_step w c d :
  flags_inv (data w) → step_spec w c d → flags_inv d.
Proof.
  intros [Hbooks Hnone] Hs.
  step_cases Hs; split; unfold borrowed_document, returned_document;
    cbn [books members]; try done.
  - apply map_Forall_insert_2; [|done]. by split.
  - rewrite lookup_insert_ne; [done|apply str_int_not_None].
  - destruct (present_not_None _ _ _ Hnone Hm) as [Hv _].
    apply map_Forall_insert_2; [|done]. by split.
  - destruct (present_not_None _ _ _ Hnone Hm) as [_ Hk].
    by rewrite lookup_insert_ne.
  - apply map_Forall_insert_2; [|done]. by split.
  - destruct (present_not_None _ _ _ Hnone Hm) as [_ Hk].
    by rewrite lookup_insert_ne.
Qed.

(** Properties of the document alone follow a run step by step. *)
Lemma reachable_document (P : Document → Prop) :
  P empty_document →
  (∀ w c d, P (data w) → step_spec w c d → P d) →
  ∀ w, reachable w → P (data w).
Proof.
  intros Hempty Hstep. apply (reachable_ind_inv (λ w, P (data w))).
  - done.
  - intros w c Hw. apply (Hstep w c); [done|apply step_sound].
Qed.

(** ** Borrowing limit (C2) *)

Lemma within_limit_step w c d :
  within_limit (data w) → step_spec w c d → within_limit d.
Proof.
  unfold within_limit. intros Hlim Hs.
  step_cases Hs; unfold borrowed_document, returned_document;
    cbn [members]; try done.
  - apply map_Forall_insert_2; [|done]. simpl. lia.
  - apply map_Forall_insert_2; [|done]. simpl.
    rewrite length_app. simpl. lia.
  - apply map_Forall_insert_2; [|done]. simpl.
    pose proof (Hlim _ _ Hm) as Hle. simpl in Hle.
    etrans; [apply length_filter|done].
Qed.

(** * The claims *)

(** C1. In every store document reached from the empty document by
    [add_book], [add_member], [borrow_book] and [return_book] calls, a
    book has [is_available == False] if and only if its [borrowed_by] is
    not [None]. *)
Theorem availability_matches_borrower (w : World) :
  reachable w →
  ∀ k book_data, books (data w) !! k = Some book_data →
    (BookDict.is_available book_data = false ↔
     BookDict.borrowed_by book_data ≠ PyNone).
Proof.
  intros Hw k book_data Hk.
  assert (flags_inv (data w)) as [Hbooks _].
  { clear Hk. revert w Hw. apply reachable_document.
    - apply flags_inv_empty.
    - apply flags_inv_step. }
  exact (Hbooks k book_data Hk).
Qed.

(** On [one_loan]: book 1 is out, and its borrower is member 1. *)
Lemma availability_matches_borrower_witness :
  let w := run (fresh tick) one_loan in
  let book_data := BookDict.mk 1 "T" "A" "ISBN1" "General" false (PyInt 1) 0 in
  reachable w ∧ books (data w) !! "1" = Some book_data ∧
  (BookDict.is_available book_data = false ↔
   BookDict.borrowed_by book_data ≠ PyNone).
Proof.
  intros w book_data.
  assert (reachable w) as Hw by (by exists tick, one_loan).
  assert (books (data w) !! "1" = Some book_data) as Hk
    by (vm_compute; reflexivity).
  split; [exact Hw|]. split; [exact Hk|].
  exact (availability_matches_borrower w Hw "1" book_data Hk).
Defined.

(** C2. In every store document reached by service calls, every member's
    [borrowed_books] has at most 3 entries. *)
Theorem borrowing_limit_respected (w : World) :
  reachable w →
  ∀ k member_data, members (data w) !! k = Some member_data →
    (length (MemberDict.borrowed_books member_data) ≤ 3)%nat.
Proof.
  intros Hw k member_data Hk.
  assert (within_limit (data w)) as Hlim.
  { clear Hk. revert w Hw. apply reachable_document.
    - apply map_Forall_empty.
    - apply within_limit_step. }
  exact (Hlim k member_data Hk).
Qed.

(** On [one_loan]: Ann holds one book. *)
Lemma borrowing_limit_respected_witness :
  let w := run (fresh tick) one_loan in
  let member_data :=
    MemberDict.mk 1 "Ann" "ann@example.com" 2
      [BorrowRecord.mk (PyInt 1) 3 (4 + timedelta 14)] true in
  reachable w ∧ members (data w) !! "1" = Some member_data ∧
  (length (MemberDict.borrowed_books member_data) ≤ 3)%nat.
Proof.
  intros w member_data.
  assert (reachable w) as Hw by (by exists tick, one_loan).
  assert (members (data w) !! "1" = Some member_data) as Hk
    by (vm_compute; reflexivity).
  split; [exact Hw|]. split; [exact Hk|].
  exact (borrowing_limit_respected w Hw "1" member_data Hk).
Defined.

(** C3. When both records exist and the book's [is_available] is false,
    [borrow_book] returns [(False, "Book is not available")] and changes
    nothing: the book, the member, the transactions and the store file
    are as before. *)
Theorem borrow_unavailable_refused (w : World) (member_id book_id : pyval)
  (member_data : MemberDict.t) (book_data : BookDict.t) :
  members (data w) !! str member_id = Some member_data →
  books (data w) !! str book_id = Some book_data →
  BookDict.is_available book_data = false →
  LibrarySystem.borrow_book member_id book_id w =
  ((false, "Book is not available"), w).
Proof.
  intros Hm Hb Hav. by rewrite borrow_book_eq, Hm, Hb, Hav.
Qed.

(** On [lent_to_ann]: Bob asks for the book Ann holds. *)
Lemma borrow_unavailable_refused_witness :
  let w := run (fresh tick) lent_to_ann in
  let member_data := MemberDict.mk 2 "Bob" "bob@example.com" 2 [] true in
  let book_data := BookDict.mk 1 "T" "A" "ISBN1" "General" false (PyInt 1) 0 in
  members (data w) !! str (PyInt 2) = Some member_data ∧
  books (data w) !! str (PyInt 1) = Some book_data ∧
  BookDict.is_available book_data = false ∧
  LibrarySystem.borrow_book (PyInt 2) (PyInt 1) w =
  ((false, "Book is not available"), w).
Proof.
  intros w member_data book_data.
  assert (members (data w) !! str (PyInt 2) = Some member_data) as Hm
    by (vm_compute; reflexivity).
  assert (books (data w) !! str (PyInt 1) = Some book_data) as Hb
    by (vm_compute; reflexivity).
  assert (BookDict.is_available book_data = false) as Hav by reflexivity.
  split; [exact Hm|]. split; [exact Hb|]. split; [exact Hav|].
  exact (borrow_unavailable_refused w (PyInt 2) (PyInt 1) member_data
           book_data Hm Hb Hav).
Defined.

(** C4. When both records exist, whoever holds the book, [return_book]
    succeeds: the book becomes available with [borrowed_by = None], the
    records whose [book_id] equals the argument leave that member's list
    (which is unchanged when there is none), and one ['return']
    transaction is appended. It fails, with the not-found message and no
    change, exactly when one of the two records is missing. *)
Theorem return_book_any_member (w : World) (member_id book_id : pyval) :
  (∀ member_data book_data,
     members (data w) !! str member_id = Some member_data →
     books (data w) !! str book_id = Some book_data →
     ∃ w' member_data' date,
       LibrarySystem.return_book member_id book_id w =
       ((true, "Book returned successfully"), w') ∧
       books (data w') !! str book_id =
         Some (BookDict.mk (BookDict.id book_data) (BookDict.title book_data)
                 (BookDict.author book_data) (BookDict.isbn book_data)
                 (BookDict.category book_data) true PyNone
                 (BookDict.added_date book_data)) ∧
       members (data w') !! str member_id = Some member_data' ∧
       MemberDict.borrowed_books member_data' =
         filter (λ r, BorrowRecord.book_id r ≠ book_id)
                (MemberDict.borrowed_books member_data) ∧
       (∀ r, r ∈ MemberDict.borrowed_books member_data' →
             BorrowRecord.book_id r ≠ book_id) ∧
       ((∀ r, r ∈ MemberDict.borrowed_books member_data →
              BorrowRecord.book_id r ≠ book_id) →
        MemberDict.borrowed_books member_data' =
        MemberDict.borrowed_books member_data) ∧
       transactions (data w') =
         transactions (data w) ++
         [Transaction.mk "return" member_id book_id date]) ∧
  (members (data w) !! str member_id = None ∨
   books (data w) !! str book_id = None →
   LibrarySystem.return_book member_id book_id w =
   ((false, "Member or book not found"), w)) ∧
  (fst (fst (LibrarySystem.return_book member_id book_id w)) = false ↔
   members (data w) !! str member_id = None ∨
   books (data w) !! str book_id = None).
Proof.
  rewrite return_book_eq. split; [|split].
  - intros member_data book_data Hm Hb. rewrite Hm, Hb.
    eexists _, (returned_member w book_id member_data), _.
    split; [reflexivity|]. cbn [data saved returned_document books members
                                transactions].
    rewrite !lookup_insert_eq. repeat split.
    + intros r Hr. cbn in Hr. by apply list_elem_of_filter in Hr as [Hr _].
    + intros Hnone. cbn. by apply filter_keeps_all.
  - intros [Hm|Hb].
    + by rewrite Hm.
    + rewrite Hb. by destruct (members (data w) !! str member_id).
  - destruct (members (data w) !! str member_id),
             (books (data w) !! str book_id); cbn;
      (split; [intros ?; first [discriminate|by left|by right]
              |intros [?|?]; first [discriminate|reflexivity]]).
Qed.

(** On [lent_to_ann]: Bob returns the book Ann holds. *)
Lemma return_book_any_member_witness :
  let w := run (fresh tick) lent_to_ann in
  let member_data := MemberDict.mk 2 "Bob" "bob@example.com" 2 [] true in
  let book_data := BookDict.mk 1 "T" "A" "ISBN1" "General" false (PyInt 1) 0 in
  members (data w) !! str (PyInt 2) = Some member_data ∧
  books (data w) !! str (PyInt 1) = Some book_data ∧
  ∃ w', LibrarySystem.return_book (PyInt 2) (PyInt 1) w =
        ((true, "Book returned successfully"), w') ∧
        books (data w') !! str (PyInt 1) =
        Some (BookDict.mk 1 "T" "A" "ISBN1" "General" true PyNone 0).
Proof.
  intros w member_data book_data.
  assert (members (data w) !! str (PyInt 2) = Some member_data) as Hm
    by (vm_compute; reflexivity).
  assert (books (data w) !! str (PyInt 1) = Some book_data) as Hb
    by (vm_compute; reflexivity).
  split; [exact Hm|]. split; [exact Hb|].
  destruct (return_book_any_member w (PyInt 2) (PyInt 1)) as [Hret _].
  destruct (Hret member_data book_data Hm Hb)
    as (w' & member_data' & date & Hres & Hbook & _).
  exists w'. split; [exact Hres|exact Hbook].
Defined.

(** ** What a call leaves alone (C10) *)

Lemma frame_refl w member_id book_id : frame w w member_id book_id.
Proof.
  split; [done|]. split; [done|]. exists []. rewrite app_nil_r. split; [done|simpl; lia].
Qed.

Lemma frame_insert w w' member_id book_id book_data member_data t :
  data w' = mkDocument (<[str book_id := book_data]> (books (data w)))
              (<[str member_id := member_data]> (members (data w)))
              (transactions (data w) ++ [t]) →
  frame w w' member_id book_id.
Proof.
  unfold frame. intros ->. cbn [books members transactions].
  split; [|split].
  - intros k Hk. by rewrite lookup_insert_ne.
  - intros k Hk. by rewrite lookup_insert_ne.
  - by exists [t].
Qed.

(** C10. [borrow_book(m, b)] and [return_book(m, b)] change at most the
    record of book [b] and the record of member [m] and append at most one
    transaction; all other records and the earlier transactions stay. In
    particular, when [return_book(m2, b)] succeeds on a book whose
    [borrowed_by] is [m1], the id of another member record, the record of
    [m1], with every entry of its [borrowed_books], is untouched, while
    the book becomes available. *)
Theorem borrow_return_frame (w : World) (member_id book_id : pyval) :
  frame w (snd (LibrarySystem.borrow_book member_id book_id w))
        member_id book_id ∧
  frame w (snd (LibrarySystem.return_book member_id book_id w))
        member_id book_id ∧
  (∀ borrower book_data,
     books (data w) !! str book_id = Some book_data →
     BookDict.borrowed_by book_data = borrower →
     str borrower ≠ str member_id →
     is_Some (members (data w) !! str member_id) →
     let w' := snd (LibrarySystem.return_book member_id book_id w) in
     members (data w') !! str borrower = members (data w) !! str borrower ∧
     (∀ holder r,
        members (data w) !! str borrower = Some holder →
        r ∈ MemberDict.borrowed_books holder →
        BorrowRecord.book_id r = book_id →
        ∃ holder', members (data w') !! str borrower = Some holder' ∧
                   MemberDict.borrowed_books holder' =
                   MemberDict.borrowed_books holder ∧
                   r ∈ MemberDict.borrowed_books holder') ∧
     ∃ book_data', books (data w') !! str book_id = Some book_data' ∧
                   BookDict.is_available book_data' = true).
Proof.
  split; [|split].
  - rewrite borrow_book_eq.
    destruct (members (data w) !! str member_id) as [mr|];
      [|apply frame_refl].
    destruct (books (data w) !! str book_id) as [bk|]; [|apply frame_refl].
    destruct (BookDict.is_available bk); [|apply frame_refl].
    destruct (length (MemberDict.borrowed_books mr) <? 3)%nat.
    + by eapply frame_insert.
    + split; [done|]. split; [done|]. exists []. rewrite app_nil_r. split; [done|simpl; lia].
  - rewrite return_book_eq.
    destruct (members (data w) !! str member_id) as [mr|];
      [|apply frame_refl].
    destruct (books (data w) !! str book_id) as [bk|]; [|apply frame_refl].
    by eapply frame_insert.
  - intros borrower book_data Hb Hby Hne [mr Hm].
    rewrite return_book_eq, Hm, Hb.
    cbn [snd data saved returned_document books members].
    rewrite lookup_insert_ne by done. split; [reflexivity|]. split.
    + intros holder r Hh Hr _. by exists holder.
    + eexists. by rewrite lookup_insert_eq.
Qed.

(** On [lent_to_ann]: when Bob returns the book Ann holds, Ann's record
    stays as it is. *)
Lemma borrow_return_frame_witness :
  let w := run (fresh tick) lent_to_ann in
  let w' := snd (LibrarySystem.return_book (PyInt 2) (PyInt 1) w) in
  let book_data := BookDict.mk 1 "T" "A" "ISBN1" "General" false (PyInt 1) 0 in
  books (data w) !! str (PyInt 1) = Some book_data ∧
  str (PyInt 1) ≠ str (PyInt 2) ∧
  is_Some (members (data w) !! str (PyInt 2)) ∧
  members (data w') !! str (PyInt 1) = members (data w) !! str (PyInt 1).
Proof.
  intros w w' book_data.
  assert (books (data w) !! str (PyInt 1) = Some book_data) as Hb
    by (vm_compute; reflexivity).
  assert (str (PyInt 1) ≠ str (PyInt 2)) as Hne by discriminate.
  assert (is_Some (members (data w) !! str (PyInt 2))) as Hm
    by (vm_compute; eexists; reflexivity).
  split; [exact Hb|]. split; [exact Hne|]. split; [exact Hm|].
  destruct (borrow_return_frame w (PyInt 2) (PyInt 1)) as (_ & _ & Hother).
  exact (proj1 (Hother (PyInt 1) book_data Hb eq_refl Hne Hm)).
Defined.

(** ** Distinct book ids in a member's list (C5) *)

Section Holdings.

(** The spellings in use, one per book. *)
Variable ids : list pyval.
Hypothesis ids_one_spelling : one_spelling ids.

Lemma one_spelling_eq x y : x ∈ ids → y ∈ ids → str x = str y → x = y.
Proof.
  pose proof ids_one_spelling as Hall. unfold one_spelling in Hall.
  rewrite Forall_forall in Hall. intros Hx Hy.
  specialize (Hall x Hx). rewrite Forall_forall in Hall. by apply Hall.
Qed.

Lemma holdings_inv_fresh clock : holdings_inv ids (fresh clock).
Proof.
  split; [|split].
  - intros k [x Hx]. cbn in Hx. by rewrite lookup_empty in Hx.
  - intros km mr r Hm. cbn in Hm. by rewrite lookup_empty in Hm.
  - intros km mr Hm. cbn in Hm. by rewrite lookup_empty in Hm.
Qed.

(** A book that is on the shelf is in nobody's list. *)
Lemma held_not_available d km member_data r book_data :
  held ids d → members d !! km = Some member_data →
  r ∈ MemberDict.borrowed_books member_data →
  books d !! str (BorrowRecord.book_id r) = Some book_data →
  BookDict.is_available book_data = false ∧
  str (BookDict.borrowed_by book_data) = km ∧
  BorrowRecord.book_id r ∈ ids.
Proof.
  intros Hheld Hm Hr Hb.
  destruct (Hheld km member_data r Hm Hr) as (Hin & bk & Hbk & Hav & Hby).
  rewrite Hb in Hbk. by injection Hbk as ->.
Qed.

(** Entries of lists survive an update of a book they do not name. *)
Lemma held_entry_insert d km member_data r k book_data' bs :
  held ids d → members d !! km = Some member_data →
  r ∈ MemberDict.borrowed_books member_data →
  str (BorrowRecord.book_id r) ≠ k →
  bs = <[k := book_data']> (books d) →
  BorrowRecord.book_id r ∈ ids ∧
  ∃ book_data,
    bs !! str (BorrowRecord.book_id r) = Some book_data ∧
    BookDict.is_available book_data = false ∧
    str (BookDict.borrowed_by book_data) = km.
Proof.
  intros Hheld Hm Hr Hne ->.
  destruct (Hheld km member_data r Hm Hr) as (Hin & bk & Hbk & Hav & Hby).
  split; [done|]. exists bk. by rewrite lookup_insert_ne.
Qed.

Lemma holdings_inv_step w c :
  book_ids [c] ⊆ ids → returned_by_holder w c →
  holdings_inv ids w → holdings_inv ids (step w c).
Proof.
  intros Hids Hret (Hkeys & Hheld & Hdis).
  unfold holdings_inv, book_keys_below, held, distinct_book_ids.
  rewrite step_next_book_id.
  pose proof (step_sound w c) as Hs.
  remember (data (step w c)) as d eqn:Hd. clear Hd.
  step_cases Hs; unfold borrowed_document, returned_document;
    cbn [books members].
  - (* add_book *)
    split; [|split; [|done]].
    + intros k [x Hx]. apply lookup_insert_Some in Hx as [[<- _]|[_ Hx]].
      * exists (_next_book_id w). split; [done|lia].
      * destruct (Hkeys k (mk_is_Some _ _ Hx)) as (z & -> & Hz).
        exists z. split; [done|lia].
    + intros km mr r Hm Hr. eapply held_entry_insert; eauto.
      intros E.
      destruct (Hheld km mr r Hm Hr) as (_ & bk & Hbk & _).
      destruct (Hkeys _ (mk_is_Some _ _ Hbk)) as (z & Hz & Hlt).
      rewrite Hz in E. apply str_int_inj in E. lia.
  - (* add_member *)
    split; [done|]. split.
    + intros km mr r Hm Hr.
      apply lookup_insert_Some in Hm as [[_ <-]|[_ Hm]].
      * cbn in Hr. by apply elem_of_nil in Hr.
      * by apply (Hheld km mr r).
    + intros km mr Hm.
      apply lookup_insert_Some in Hm as [[_ <-]|[_ Hm]].
      * cbn. apply NoDup_nil_2.
      * by apply (Hdis km mr).
  - (* borrow_book, lent *)
    assert (∀ km' mr' r', members (data w) !! km' = Some mr' →
              r' ∈ MemberDict.borrowed_books mr' →
              str (BorrowRecord.book_id r') ≠ str b) as Hshelf.
    { intros km' mr' r' Hm' Hr' E. rewrite <- E in Hb.
      destruct (held_not_available _ _ _ _ _ Hheld Hm' Hr' Hb) as [Hno _].
      congruence. }
    split; [|split].
    + intros k [x Hx]. apply Hkeys.
      apply lookup_insert_Some in Hx as [[<- _]|[_ Hx]]; eauto.
    + intros km mr' r Hm' Hr.
      apply lookup_insert_Some in Hm' as [[<- <-]|[_ Hm']].
      * cbn in Hr. apply elem_of_app in Hr as [Hr|Hr].
        -- eapply held_entry_insert; eauto.
        -- apply list_elem_of_singleton in Hr as ->. cbn. split.
           ++ apply Hids. cbn. left.
           ++ eexists. rewrite lookup_insert_eq. done.
      * eapply held_entry_insert; eauto.
    + intros km mr' Hm'.
      apply lookup_insert_Some in Hm' as [[_ <-]|[_ Hm']];
        [|by apply (Hdis km mr')].
      cbn. rewrite fmap_app. apply NoDup_app. split; [by apply (Hdis _ _ Hm)|].
      split; [|apply NoDup_singleton].
      intros x Hx Hx'. cbn in Hx'. apply list_elem_of_singleton in Hx' as ->.
      apply list_elem_of_fmap in Hx as (r & E & Hr).
      apply (Hshelf _ _ _ Hm Hr). by rewrite <- E.
  - (* borrow_book, refused *)
    done.
  - (* return_book, done *)
    cbn [returned_by_holder] in Hret. rewrite Hm, Hb in Hret.
    assert (b ∈ ids) as Hbin by (apply Hids; cbn; left).
    split; [|split].
    + intros k [x Hx]. apply Hkeys.
      apply lookup_insert_Some in Hx as [[<- _]|[_ Hx]]; eauto.
    + intros km mr' r Hm' Hr.
      apply lookup_insert_Some in Hm' as [[<- <-]|[Hkm Hm']].
      * cbn in Hr. apply list_elem_of_filter in Hr as [Hrb Hr].
        eapply held_entry_insert; eauto.
        intros E. apply Hrb.
        destruct (Hheld _ _ _ Hm Hr) as (Hrin & _).
        by apply one_spelling_eq.
      * eapply held_entry_insert; eauto.
        intros E. rewrite <- E in Hb.
        destruct (held_not_available _ _ _ _ _ Hheld Hm' Hr Hb)
          as (Hav & Hby & _).
        apply Hkm. rewrite <- Hby. symmetry. by apply Hret.
    + intros km mr' Hm'.
      apply lookup_insert_Some in Hm' as [[_ <-]|[_ Hm']];
        [|by apply (Hdis km mr')].
      cbn. eapply sublist_NoDup; [by apply (Hdis _ _ Hm)|].
      apply fmap_sublist, sublist_filter.
  - (* return_book, refused *)
    done.
Qed.

Lemma book_ids_cons c cs : book_ids (c :: cs) = book_ids [c] ++ book_ids cs.
Proof. unfold book_ids. cbn. by rewrite app_nil_r. Qed.

Lemma holdings_inv_run cs w :
  book_ids cs ⊆ ids → disciplined w cs →
  holdings_inv ids w → holdings_inv ids (run w cs).
Proof.
  revert w. induction cs as [|c cs IH]; intros w Hids Hdisc Hinv; [done|].
  destruct Hdisc as [Hret Hdisc].
  rewrite book_ids_cons in Hids.
  cbn [run fold_left]. apply IH.
  - intros x Hx. apply Hids, elem_of_app. by right.
  - done.
  - apply holdings_inv_step; try done.
    intros x Hx. apply Hids, elem_of_app. by left.
Qed.

End Holdings.

(** C5, as stated, fails: after Ann has borrowed book 1 and Bob has
    returned it, the book is on the shelf and still in Ann's list; when
    she borrows it again her list names book 1 twice. *)
Lemma book_ids_distinct_counterexample :
  ¬ (∀ w, reachable w →
       ∀ k member_data, members (data w) !! k = Some member_data →
         NoDup (BorrowRecord.book_id <$>
                MemberDict.borrowed_books member_data)).
Proof.
  intros Hclaim.
  pose (member_data :=
          MemberDict.mk 1 "Ann" "ann@example.com" 9
            [BorrowRecord.mk (PyInt 1) 4 (5 + timedelta 14);
             BorrowRecord.mk (PyInt 1) 10 (11 + timedelta 14)] true).
  assert (reachable (run (fresh tick) returned_by_another)) as Hw
    by (by exists tick, returned_by_another).
  assert (members (data (run (fresh tick) returned_by_another)) !! "1" =
          Some member_data) as Hk by (vm_compute; reflexivity).
  specialize (Hclaim _ Hw "1" member_data Hk). cbn in Hclaim.
  apply NoDup_cons in Hclaim as [Hnotin _].
  apply Hnotin. left.
Qed.

(** The same happens with one member, when the book is returned under
    another spelling of its id: ["1"] finds the book but matches no entry
    of the list. *)
Example spelling_matters :
  ∃ member_data,
    members (data (run (fresh tick) returned_as_text)) !! "1" =
      Some member_data ∧
    BorrowRecord.book_id <$> MemberDict.borrowed_books member_data =
      [PyInt 1; PyInt 1].
Proof. eexists. split; vm_compute; reflexivity. Qed.

(** C5, amended. In every store document reached from the empty store by
    calls that name each book by one value throughout and in which every
    effective [return_book] of a book on loan is made for the member
    record holding it, the [book_id]s of each member's [borrowed_books]
    are pairwise distinct. *)
Theorem book_ids_distinct_when_disciplined
  (clock : nat → datetime) (cs : list call) :
  one_spelling (book_ids cs) → disciplined (fresh clock) cs →
  ∀ k member_data,
    members (data (run (fresh clock) cs)) !! k = Some member_data →
    NoDup (BorrowRecord.book_id <$> MemberDict.borrowed_books member_data).
Proof.
  intros Hsp Hdisc k member_data Hk.
  destruct (holdings_inv_run (book_ids cs) Hsp cs (fresh clock))
    as (_ & _ & Hdis); [done|done|apply holdings_inv_fresh|].
  exact (Hdis k member_data Hk).
Qed.

(** [lent_in_turn] is such a sequence; Bob ends with book 1, once. *)
Lemma book_ids_distinct_when_disciplined_witness :
  let member_data :=
    MemberDict.mk 2 "Bob" "bob@example.com" 9
      [BorrowRecord.mk (PyInt 1) 10 (11 + timedelta 14)] true in
  one_spelling (book_ids lent_in_turn) ∧
  disciplined (fresh tick) lent_in_turn ∧
  members (data (run (fresh tick) lent_in_turn)) !! "2" = Some member_data ∧
  NoDup (BorrowRecord.book_id <$> MemberDict.borrowed_books member_data).
Proof.
  intros member_data.
  assert (one_spelling (book_ids lent_in_turn)) as Hsp
    by (repeat constructor).
  assert (disciplined (fresh tick) lent_in_turn) as Hdisc
    by (vm_compute; repeat split).
  assert (members (data (run (fresh tick) lent_in_turn)) !! "2" =
          Some member_data) as Hk by (vm_compute; reflexivity).
  split; [exact Hsp|]. split; [exact Hdisc|]. split; [exact Hk|].
  exact (book_ids_distinct_when_disciplined tick lent_in_turn Hsp Hdisc
           "2" member_data Hk).
Defined.

(** ** The due date of a loan (C6) *)

(** What a successful borrow files for the member: the appended record
    takes its two dates from the second and the third clock reading of
    the call. *)
Lemma borrow_book_files_record w member_id book_id member_data book_data :
  members (data w) !! str member_id = Some member_data →
  books (data w) !! str book_id = Some book_data →
  BookDict.is_available book_data = true →
  (length (MemberDict.borrowed_books member_data) < 3)%nat →
  let w' := snd (LibrarySystem.borrow_book member_id book_id w) in
  ∃ created can,
    members (data w') !! str member_id =
    Some (MemberDict.mk (MemberDict.id member_data)
            (MemberDict.name member_data) (MemberDict.email member_data)
            created
            (MemberDict.borrowed_books member_data ++
             [BorrowRecord.mk book_id (clock w (1 + clock_reads w)%nat)
                (clock w (2 + clock_reads w)%nat + timedelta 14)])
            can).
Proof.
  intros Hm Hb Hav Hlen. rewrite borrow_book_eq, Hm, Hb, Hav.
  apply Nat.ltb_lt in Hlen. rewrite Hlen.
  cbn [snd data saved borrowed_document members].
  rewrite lookup_insert_eq. by eexists _, _.
Qed.

(** When the clock does not move between these two readings, the record
    is due exactly 14 days after its borrow date. *)
Lemma due_date_on_still_clock w member_id book_id member_data book_data :
  members (data w) !! str member_id = Some member_data →
  books (data w) !! str book_id = Some book_data →
  BookDict.is_available book_data = true →
  (length (MemberDict.borrowed_books member_data) < 3)%nat →
  clock w (2 + clock_reads w)%nat = clock w (1 + clock_reads w)%nat →
  let w' := snd (LibrarySystem.borrow_book member_id book_id w) in
  ∃ member_data' r,
    members (data w') !! str member_id = Some member_data' ∧
    MemberDict.borrowed_books member_data' =
      MemberDict.borrowed_books member_data ++ [r] ∧
    BorrowRecord.due_date r = BorrowRecord.borrowed_date r + timedelta 14.
Proof.
  intros Hm Hb Hav Hlen Hstill.
  destruct (borrow_book_files_record w member_id book_id member_data
              book_data Hm Hb Hav Hlen) as (created & can & Hfiled).
  eexists _, _. split; [exact Hfiled|]. split; [reflexivity|].
  cbn [BorrowRecord.due_date BorrowRecord.borrowed_date]. by rewrite Hstill.
Qed.

(** C6, on the clock that ticks at every reading: the record of the
    first loan is due 14 days and one microsecond after its borrow date,
    not 14 days. *)
(** When it moves, the record is not due 14 days after its borrow
    date. *)
Lemma due_date_on_moving_clock w member_id book_id member_data book_data :
  members (data w) !! str member_id = Some member_data →
  books (data w) !! str book_id = Some book_data →
  BookDict.is_available book_data = true →
  (length (MemberDict.borrowed_books member_data) < 3)%nat →
  clock w (2 + clock_reads w)%nat ≠ clock w (1 + clock_reads w)%nat →
  let w' := snd (LibrarySystem.borrow_book member_id book_id w) in
  ∃ member_data' r,
    members (data w') !! str member_id = Some member_data' ∧
    MemberDict.borrowed_books member_data' =
      MemberDict.borrowed_books member_data ++ [r] ∧
    BorrowRecord.due_date r ≠ BorrowRecord.borrowed_date r + timedelta 14.
Proof.
  intros Hm Hb Hav Hlen Hmoves.
  destruct (borrow_book_files_record w member_id book_id member_data
              book_data Hm Hb Hav Hlen) as (created & can & Hfiled).
  eexists _, _. split; [exact Hfiled|]. split; [reflexivity|].
  cbn [BorrowRecord.due_date BorrowRecord.borrowed_date]. lia.
Qed.

Theorem due_date_read_after_borrow_date :
  ∃ member_data r,
    members (data (run (fresh tick) one_loan)) !! "1" = Some member_data ∧
    MemberDict.borrowed_books member_data = [r] ∧
    BorrowRecord.due_date r =
      BorrowRecord.borrowed_date r + timedelta 14 + 1 ∧
    BorrowRecord.due_date r ≠ BorrowRecord.borrowed_date r + timedelta 14.
Proof.
  eexists _, _. split; [vm_compute; reflexivity|].
  split; [reflexivity|]. split; [reflexivity|]. by vm_compute.
Qed.

(** ** Loading the store file (C7) *)

(** C7, as stated, fails: a store file that is not valid JSON does not
    load as the empty document. *)
Lemma load_malformed_counterexample :
  ¬ (∀ file,
       file = None ∨ (∃ raw, file = Some (NotJson raw)) →
       DataManager._load_data file = Ok empty_document).
Proof.
  intros Hclaim.
  specialize (Hclaim (Some (NotJson "{")) (or_intror (ex_intro _ "{" eq_refl))).
  discriminate Hclaim.
Qed.

(** C7, amended. [load()] returns the empty default document when the
    store file is missing; when the file exists and is not valid JSON the
    decoding error is raised, by [load()] and so by the construction of
    the service. *)
Theorem load_missing_or_malformed :
  DataManager._load_data None = Ok empty_document ∧
  (∀ raw, DataManager._load_data (Some (NotJson raw)) =
          Raise JSONDecodeError) ∧
  (∀ clock raw, LibrarySystem.__init__ clock (Some (NotJson raw)) =
                Raise JSONDecodeError).
Proof. by repeat split. Qed.

(** ** Saving what was loaded (C9) *)

(** The store file of a running service always loads as the document the
    service holds. *)
Lemma store_file_in_sync (w : World) :
  reachable w → DataManager._load_data (data_file w) = Ok (data w).
Proof.
  revert w.
  apply (reachable_ind_inv
           (λ w, DataManager._load_data (data_file w) = Ok (data w)));
    [done|].
  intros w0 c Hw0.
  destruct c as [title author isbn category|name email|m b|m b]; cbn [step].
  - by rewrite add_book_eq.
  - by rewrite add_member_eq.
  - rewrite borrow_book_eq. by repeat case_match.
  - rewrite return_book_eq. by repeat case_match.
Qed.

(** C9. When the data manager saves the document it has loaded, the
    store file then loads as a document with the same books, the same
    members and the same transactions; a file that existed is rewritten
    with the content it had. *)
Theorem save_load_round_trip (w : World) :
  DataManager._load_data (data_file w) = Ok (data w) →
  let w' := snd (DataManager._save_data w) in
  (∃ d', DataManager._load_data (data_file w') = Ok d' ∧
         books d' = books (data w) ∧ members d' = members (data w) ∧
         transactions d' = transactions (data w)) ∧
  data w' = data w ∧
  (data_file w ≠ None → data_file w' = data_file w).
Proof.
  intros Hload. cbn. split; [by exists (data w)|]. split; [done|].
  intros Hfile. destruct (data_file w) as [[d|raw]|]; try done.
  cbn in Hload. by injection Hload as ->.
Qed.

(** On the state after [one_loan], whose file was written by the last
    call. *)
Lemma save_load_round_trip_witness :
  let w := run (fresh tick) one_loan in
  let w' := snd (DataManager._save_data w) in
  DataManager._load_data (data_file w) = Ok (data w) ∧
  ∃ d', DataManager._load_data (data_file w') = Ok d' ∧
        books d' = books (data w) ∧ members d' = members (data w) ∧
        transactions d' = transactions (data w).
Proof.
  intros w w'.
  assert (DataManager._load_data (data_file w) = Ok (data w)) as Hload
    by (vm_compute; reflexivity).
  split; [exact Hload|].
  exact (proj1 (save_load_round_trip w Hload)).
Defined.

(** ** Id allocation (C8) *)

Lemma max_spec (x : Z) (xs : list Z) :
  max x xs ∈ x :: xs ∧ ∀ y, y ∈ x :: xs → (y ≤ max x xs)%Z.
Proof.
  revert x. induction xs as [|a xs IH]; intros x.
  - cbn. split; [left|]. intros y Hy. apply list_elem_of_singleton in Hy. lia.
  - change (max x (a :: xs)) with (max (Z.max x a) xs).
    destruct (IH (Z.max x a)) as [Hin Hle]. split.
    + apply elem_of_cons in Hin as [->|Hin].
      * destruct (Z.max_spec x a) as [[_ ->]|[_ ->]];
          [right; left|left].
      * right. by right.
    + intros y Hy.
      assert (Z.max x a ≤ max (Z.max x a) xs)%Z as Hm by (apply Hle; left).
      apply elem_of_cons in Hy as [->|Hy]; [lia|].
      apply elem_of_cons in Hy as [->|Hy]; [lia|].
      apply Hle. by right.
Qed.

Lemma _get_next_id_spec {V} (collection : gmap string V) :
  keys_are_ids collection →
  ∃ n, LibrarySystem._get_next_id collection = Ok n ∧
       is_next_id collection n.
Proof.
  intros Hkeys. unfold LibrarySystem._get_next_id.
  assert (∀ k, k ∈ (map_to_list collection).*1 ↔
               is_Some (collection !! k)) as Hdom.
  { intros k. rewrite list_elem_of_fmap. split.
    - intros ([k' x] & -> & Hkx). apply elem_of_map_to_list in Hkx. by exists x.
    - intros [x Hx]. exists (k, x). split; [done|].
      by apply elem_of_map_to_list. }
  destruct (mapM int (map_to_list collection).*1) as [zs|] eqn:Hzs.
  - apply mapM_Some in Hzs.
    destruct zs as [|z zs].
    + exists 1. split; [done|]. left. split; [|done].
      apply Forall2_nil_inv_r in Hzs. apply fmap_nil_inv in Hzs.
      by apply map_to_list_empty_iff.
    + exists (max z zs + 1). split; [done|]. right.
      destruct (max_spec z zs) as [Hin Hle].
      destruct (proj1 (list_elem_of_lookup _ _) Hin) as [i Hi].
      destruct (Forall2_lookup_r _ _ _ _ _ Hzs Hi) as (k & Hk & Hint).
      exists k, (max z zs). split; [|split; [done|split; [done|]]].
      * apply Hdom. by apply list_elem_of_lookup_2 in Hk.
      * intros k' z' Hk' Hint'. apply Hle.
        apply Hdom, list_elem_of_lookup in Hk' as [j Hj].
        destruct (Forall2_lookup_l _ _ _ _ _ Hzs Hj) as (z'' & Hz'' & Hint'').
        rewrite Hint' in Hint''. injection Hint'' as <-.
        by apply list_elem_of_lookup_2 in Hz''.
  - exfalso.
    assert (is_Some (mapM int (map_to_list collection).*1)) as [zs Hsome];
      [|congruence].
    apply mapM_is_Some, Forall_forall. intros k Hk.
    apply Hdom in Hk as [x Hx]. exact (Hkeys k x Hx).
Qed.

(** C8. The service is constructed with each counter one above the
    greatest existing id of its collection, or at 1 for an empty
    collection; [add_book] and [add_member] give the new record the
    current counter, file it under that id and add one to the counter
    held by the service; and on an empty store the first [add_book]
    returns a book with id 1 that is available. *)
Theorem ids_assigned_from_counters :
  (∀ clock file d,
     DataManager._load_data file = Ok d →
     keys_are_ids (books d) → keys_are_ids (members d) →
     ∃ w, LibrarySystem.__init__ clock file = Ok w ∧ data w = d ∧
          is_next_id (books d) (_next_book_id w) ∧
          is_next_id (members d) (_next_member_id w)) ∧
  (∀ w title author isbn category,
     let book := fst (LibrarySystem.add_book title author isbn category w) in
     let w' := snd (LibrarySystem.add_book title author isbn category w) in
     Book._book_id book = _next_book_id w ∧
     books (data w') !! str (PyInt (_next_book_id w)) =
       Some (Book.to_dict book) ∧
     _next_book_id w' = _next_book_id w + 1 ∧
     _next_member_id w' = _next_member_id w) ∧
  (∀ w name email,
     let member := fst (LibrarySystem.add_member name email w) in
     let w' := snd (LibrarySystem.add_member name email w) in
     Member._person_id member = _next_member_id w ∧
     members (data w') !! str (PyInt (_next_member_id w)) =
       Some (Member.to_dict member) ∧
     _next_member_id w' = _next_member_id w + 1 ∧
     _next_book_id w' = _next_book_id w) ∧
  (∀ clock file title author isbn category,
     DataManager._load_data file = Ok empty_document →
     ∃ w, LibrarySystem.__init__ clock file = Ok w ∧
          let book :=
            fst (LibrarySystem.add_book title author isbn category w) in
          Book._book_id book = 1 ∧ Book._is_available book = true).
Proof.
  split; [|split; [|split]].
  - intros clock file d Hload Hbooks Hmembers.
    destruct (_get_next_id_spec (books d) Hbooks) as (nb & Hnb & Hb).
    destruct (_get_next_id_spec (members d) Hmembers) as (nm & Hnm & Hm).
    exists (mkWorld clock 0 file d nb nm).
    unfold LibrarySystem.__init__. by rewrite Hload, Hnb, Hnm.
  - intros w title author isbn category. rewrite add_book_eq.
    cbn. by rewrite lookup_insert_eq.
  - intros w name email. rewrite add_member_eq.
    cbn. by rewrite lookup_insert_eq.
  - intros clock file title author isbn category Hload.
    exists (mkWorld clock 0 file empty_document 1 1).
    unfold LibrarySystem.__init__. by rewrite Hload.
Qed.

(** On the store left by [lent_to_ann], with the keys ["1"] and
    ["2"]. *)
Lemma ids_assigned_from_counters_witness :
  let d := data (run (fresh tick) lent_to_ann) in
  DataManager._load_data (Some (JsonText d)) = Ok d ∧
  keys_are_ids (books d) ∧ keys_are_ids (members d) ∧
  ∃ w, LibrarySystem.__init__ tick (Some (JsonText d)) = Ok w ∧
       data w = d ∧
       is_next_id (books d) (_next_book_id w) ∧
       is_next_id (members d) (_next_member_id w).
Proof.
  intros d.
  assert (keys_are_ids (books d)) as Hbooks
    by (apply (bool_decide_unpack _); vm_compute; exact I).
  assert (keys_are_ids (members d)) as Hmembers
    by (apply (bool_decide_unpack _); vm_compute; exact I).
  split; [reflexivity|]. split; [exact Hbooks|]. split; [exact Hmembers|].
  exact (proj1 ids_assigned_from_counters tick (Some (JsonText d)) d
           eq_refl Hbooks Hmembers).
Defined.

(** On that store, with one book and two members, the service starts
    with the counters 2 and 3. *)
Example counters_after_restart :
  ∃ w, LibrarySystem.__init__ tick
         (data_file (run (fresh tick) lent_to_ann)) = Ok w ∧
       _next_book_id w = 2 ∧ _next_member_id w = 3.
Proof. eexists. split; [vm_compute; reflexivity|]. by split. Qed.

(** The service is started on a missing store file as [fresh]. *)
Example fresh_is_constructed clock :
  LibrarySystem.__init__ clock None = Ok (fresh clock).
Proof. reflexivity. Qed.


(** * Further properties of the code *)

(** ** The outcomes of [borrow_book] *)

(** X1. A member who holds three books is refused any available book
    with the limit message; the document, the store file and the two
    counters stay as they are, and one clock reading has been made. *)
Theorem borrow_at_limit_refused (w : World) (member_id book_id : pyval)
  (member_data : MemberDict.t) (book_data : BookDict.t) :
  members (data w) !! str member_id = Some member_data →
  books (data w) !! str book_id = Some book_data →
  BookDict.is_available book_data = true →
  (3 ≤ length (MemberDict.borrowed_books member_data))%nat →
  ∃ w', LibrarySystem.borrow_book member_id book_id w =
        ((false, "Member has reached borrowing limit"), w') ∧
        data w' = data w ∧ data_file w' = data_file w ∧
        _next_book_id w' = _next_book_id w ∧
        _next_member_id w' = _next_member_id w ∧
        clock_reads w' = S (clock_reads w).
Proof.
  intros Hm Hb Hav Hlen. rewrite borrow_book_eq, Hm, Hb, Hav.
  apply Nat.ltb_ge in Hlen. rewrite Hlen. by eexists.
Qed.

(** On [three_loans]: Ann asks for book 4. *)
Lemma borrow_at_limit_refused_witness :
  let w := run (fresh tick) three_loans in
  members (data w) !! str (PyInt 1) = Some ann_with_three ∧
  books (data w) !! str (PyInt 4) = Some book4_new ∧
  BookDict.is_available book4_new = true ∧
  (3 ≤ length (MemberDict.borrowed_books ann_with_three))%nat ∧
  ∃ w', LibrarySystem.borrow_book (PyInt 1) (PyInt 4) w =
        ((false, "Member has reached borrowing limit"), w') ∧
        data w' = data w.
Proof.
  intros w.
  assert (members (data w) !! str (PyInt 1) = Some ann_with_three) as Hm
    by (vm_compute; reflexivity).
  assert (books (data w) !! str (PyInt 4) = Some book4_new) as Hb
    by (vm_compute; reflexivity).
  assert (BookDict.is_available book4_new = true) as Hav by reflexivity.
  assert (3 ≤ length (MemberDict.borrowed_books ann_with_three))%nat
    as Hlen by (simpl; lia).
  split; [exact Hm|]. split; [exact Hb|]. split; [exact Hav|].
  split; [exact Hlen|].
  destruct (borrow_at_limit_refused w (PyInt 1) (PyInt 4) ann_with_three
              book4_new Hm Hb Hav Hlen) as (w' & Hres & Hdata & _).
  exists w'. split; [exact Hres|exact Hdata].
Defined.

(** X2. When both records exist, the book is available and the member
    holds fewer than three books, [borrow_book] succeeds: the book is
    filed as unavailable and borrowed by the [member_id] given, its other
    fields kept; the member's list gains one record for the book at its
    end; one ['borrow'] transaction is appended; and the store file holds
    the new document. *)
Theorem borrow_book_lends (w : World) (member_id book_id : pyval)
  (member_data : MemberDict.t) (book_data : BookDict.t) :
  members (data w) !! str member_id = Some member_data →
  books (data w) !! str book_id = Some book_data →
  BookDict.is_available book_data = true →
  (length (MemberDict.borrowed_books member_data) < 3)%nat →
  ∃ w' member_data' r date,
    LibrarySystem.borrow_book member_id book_id w =
    ((true, "Book borrowed successfully"), w') ∧
    books (data w') !! str book_id =
      Some (BookDict.mk (BookDict.id book_data) (BookDict.title book_data)
              (BookDict.author book_data) (BookDict.isbn book_data)
              (BookDict.category book_data) false member_id
              (BookDict.added_date book_data)) ∧
    members (data w') !! str member_id = Some member_data' ∧
    MemberDict.borrowed_books member_data' =
      MemberDict.borrowed_books member_data ++ [r] ∧
    BorrowRecord.book_id r = book_id ∧
    transactions (data w') =
      transactions (data w) ++
      [Transaction.mk "borrow" member_id book_id date] ∧
    data_file w' = Some (JsonText (data w')).
Proof.
  intros Hm Hb Hav Hlen. rewrite borrow_book_eq, Hm, Hb, Hav.
  apply Nat.ltb_lt in Hlen. rewrite Hlen.
  eexists _, (borrowed_member w book_id member_data), _, _.
  split; [reflexivity|].
  cbn [data saved borrowed_document books members transactions data_file].
  rewrite !lookup_insert_eq. by repeat split.
Qed.

(** On [stocked]: Ann borrows book 1. *)
Lemma borrow_book_lends_witness :
  let w := run (fresh tick) stocked in
  members (data w) !! str (PyInt 1) = Some ann_new ∧
  books (data w) !! str (PyInt 1) = Some book1_new ∧
  BookDict.is_available book1_new = true ∧
  (length (MemberDict.borrowed_books ann_new) < 3)%nat ∧
  ∃ w', LibrarySystem.borrow_book (PyInt 1) (PyInt 1) w =
        ((true, "Book borrowed successfully"), w').
Proof.
  intros w.
  assert (members (data w) !! str (PyInt 1) = Some ann_new) as Hm
    by (vm_compute; reflexivity).
  assert (books (data w) !! str (PyInt 1) = Some book1_new) as Hb
    by (vm_compute; reflexivity).
  assert (BookDict.is_available book1_new = true) as Hav by reflexivity.
  assert (length (MemberDict.borrowed_books ann_new) < 3)%nat as Hlen
    by (simpl; lia).
  split; [exact Hm|]. split; [exact Hb|]. split; [exact Hav|].
  split; [exact Hlen|].
  destruct (borrow_book_lends w (PyInt 1) (PyInt 1) ann_new book1_new
              Hm Hb Hav Hlen) as (w' & md' & r & date & Hres & _).
  exists w'. exact Hres.
Defined.

(** X3. [borrow_book] answers [True] exactly when both records exist,
    the book is available and the member holds fewer than three books;
    whenever it answers [False], the document, the store file and the
    counters are as before the call. *)
Theorem borrow_book_succeeds_iff (w : World) (member_id book_id : pyval) :
  let outcome := LibrarySystem.borrow_book member_id book_id w in
  (fst (fst outcome) = true ↔
   ∃ member_data book_data,
     members (data w) !! str member_id = Some member_data ∧
     books (data w) !! str book_id = Some book_data ∧
     BookDict.is_available book_data = true ∧
     (length (MemberDict.borrowed_books member_data) < 3)%nat) ∧
  (fst (fst outcome) = false →
   data (snd outcome) = data w ∧ data_file (snd outcome) = data_file w ∧
   _next_book_id (snd outcome) = _next_book_id w ∧
   _next_member_id (snd outcome) = _next_member_id w).
Proof.
  cbn zeta. rewrite borrow_book_eq.
  destruct (members (data w) !! str member_id) as [mr|] eqn:Hm.
  2: { split; [|done]. split; [done|]. by intros (? & ? & ? & _). }
  destruct (books (data w) !! str book_id) as [bk|] eqn:Hb.
  2: { split; [|done]. split; [done|]. by intros (? & ? & _ & ? & _). }
  destruct (BookDict.is_available bk) eqn:Hav.
  2: { split; [|done]. split; [done|].
       intros (? & bk' & _ & [= <-] & Hav' & _). congruence. }
  destruct (length (MemberDict.borrowed_books mr) <? 3)%nat eqn:Hlen.
  - split; [|done]. split; [|done]. intros _. exists mr, bk.
    by apply Nat.ltb_lt in Hlen.
  - split; [|done]. split; [done|].
    intros (mr' & ? & [= <-] & _ & _ & Hlt).
    apply Nat.ltb_lt in Hlt. congruence.
Qed.

(** ** How borrow and return compose *)

Lemma shelved_lent_book member_id book_data :
  BookDict.is_available book_data = true →
  BookDict.borrowed_by book_data = PyNone →
  shelved_book (lent_book member_id book_data) = book_data.
Proof. destruct book_data. cbn. by intros -> ->. Qed.

(** The state between the two calls of a loan that is lent and then
    given back. *)
Lemma borrowed_state w member_id book_id member_data book_data :
  members (data w) !! str member_id = Some member_data →
  books (data w) !! str book_id = Some book_data →
  BookDict.is_available book_data = true →
  (length (MemberDict.borrowed_books member_data) < 3)%nat →
  let w1 := snd (LibrarySystem.borrow_book member_id book_id w) in
  data w1 = borrowed_document w member_id book_id member_data book_data ∧
  clock w1 = clock w ∧ clock_reads w1 = (4 + clock_reads w)%nat.
Proof.
  intros Hm Hb Hav Hlen. cbn zeta. rewrite borrow_book_eq, Hm, Hb, Hav.
  apply Nat.ltb_lt in Hlen. by rewrite Hlen.
Qed.

(** X4. A loan that is given back leaves no trace but in the log: when
    an available book, with no borrower on file, is borrowed by a member
    who does not already list it and is then returned by the same ids,
    the books are exactly as before, the member has the same list, id,
    name and email, the other members are untouched, and the log has
    gained a ['borrow'] and a ['return'] entry. *)
Theorem borrow_then_return_restores (w : World) (member_id book_id : pyval)
  (member_data : MemberDict.t) (book_data : BookDict.t) :
  members (data w) !! str member_id = Some member_data →
  books (data w) !! str book_id = Some book_data →
  BookDict.is_available book_data = true →
  BookDict.borrowed_by book_data = PyNone →
  (length (MemberDict.borrowed_books member_data) < 3)%nat →
  (∀ r, r ∈ MemberDict.borrowed_books member_data →
        BorrowRecord.book_id r ≠ book_id) →
  let w1 := snd (LibrarySystem.borrow_book member_id book_id w) in
  let w2 := snd (LibrarySystem.return_book member_id book_id w1) in
  books (data w2) = books (data w) ∧
  (∃ member_data',
     members (data w2) !! str member_id = Some member_data' ∧
     MemberDict.borrowed_books member_data' =
       MemberDict.borrowed_books member_data ∧
     same_member member_data member_data') ∧
  (∀ k, k ≠ str member_id →
        members (data w2) !! k = members (data w) !! k) ∧
  ∃ t1 t2,
    transactions (data w2) =
    transactions (data w) ++
    [Transaction.mk "borrow" member_id book_id t1;
     Transaction.mk "return" member_id book_id t2].
Proof.
  intros Hm Hb Hav Hby Hlen Hnew w1 w2.
  destruct (borrowed_state w member_id book_id member_data book_data
              Hm Hb Hav Hlen) as (Hd1 & _ & _).
  fold w1 in Hd1.
  assert (members (data w1) !! str member_id =
          Some (borrowed_member w book_id member_data)) as Hm1
    by (rewrite Hd1; cbn; by rewrite lookup_insert_eq).
  assert (books (data w1) !! str book_id =
          Some (lent_book member_id book_data)) as Hb1
    by (rewrite Hd1; cbn; by rewrite lookup_insert_eq).
  unfold w2. rewrite return_book_eq, Hm1, Hb1.
  cbn [snd data saved returned_document books members transactions].
  rewrite Hd1. cbn [borrowed_document books members transactions].
  split; [|split; [|split]].
  - rewrite insert_insert_eq, shelved_lent_book by done. by apply insert_id.
  - eexists. rewrite lookup_insert_eq. split; [reflexivity|].
    split; [|done]. cbn. rewrite filter_app, filter_keeps_all by done.
    rewrite filter_cons_False, filter_nil by (cbn; tauto).
    apply app_nil_r.
  - intros k Hk. by rewrite !lookup_insert_ne.
  - eexists _, _. by rewrite <- app_assoc.
Qed.

(** On [stocked]: Ann borrows book 1 and gives it back. *)
Lemma borrow_then_return_restores_witness :
  let w := run (fresh tick) stocked in
  let w1 := snd (LibrarySystem.borrow_book (PyInt 1) (PyInt 1) w) in
  let w2 := snd (LibrarySystem.return_book (PyInt 1) (PyInt 1) w1) in
  members (data w) !! str (PyInt 1) = Some ann_new ∧
  books (data w) !! str (PyInt 1) = Some book1_new ∧
  books (data w2) = books (data w).
Proof.
  intros w w1 w2.
  assert (members (data w) !! str (PyInt 1) = Some ann_new) as Hm
    by (vm_compute; reflexivity).
  assert (books (data w) !! str (PyInt 1) = Some book1_new) as Hb
    by (vm_compute; reflexivity).
  assert (length (MemberDict.borrowed_books ann_new) < 3)%nat as Hlen
    by (simpl; lia).
  assert (∀ r, r ∈ MemberDict.borrowed_books ann_new →
               BorrowRecord.book_id r ≠ PyInt 1) as Hnew
    by (intros r Hr; by apply elem_of_nil in Hr).
  split; [exact Hm|]. split; [exact Hb|].
  exact (proj1 (borrow_then_return_restores w (PyInt 1) (PyInt 1) ann_new
                  book1_new Hm Hb eq_refl eq_refl Hlen Hnew)).
Defined.

(** X5. A book returned under another spelling of its id stays in the
    list: when [borrow_book(m, b)] has succeeded and [return_book(m, b')]
    is called with [str(b') == str(b)] but [b' != b], the return succeeds
    and the book is on the shelf again, yet the member's list still holds
    the record of the loan. *)
Theorem respelled_return_leaves_entry (w : World)
  (member_id book_id book_id' : pyval)
  (member_data : MemberDict.t) (book_data : BookDict.t) :
  members (data w) !! str member_id = Some member_data →
  books (data w) !! str book_id = Some book_data →
  BookDict.is_available book_data = true →
  (length (MemberDict.borrowed_books member_data) < 3)%nat →
  str book_id' = str book_id → book_id' ≠ book_id →
  let w1 := snd (LibrarySystem.borrow_book member_id book_id w) in
  let outcome := LibrarySystem.return_book member_id book_id' w1 in
  fst outcome = (true, "Book returned successfully") ∧
  (∃ book_data',
     books (data (snd outcome)) !! str book_id = Some book_data' ∧
     BookDict.is_available book_data' = true ∧
     BookDict.borrowed_by book_data' = PyNone) ∧
  ∃ member_data' r,
    members (data (snd outcome)) !! str member_id = Some member_data' ∧
    r ∈ MemberDict.borrowed_books member_data' ∧
    BorrowRecord.book_id r = book_id.
Proof.
  intros Hm Hb Hav Hlen Hstr Hne w1 outcome.
  destruct (borrowed_state w member_id book_id member_data book_data
              Hm Hb Hav Hlen) as (Hd1 & _ & _).
  fold w1 in Hd1.
  assert (members (data w1) !! str member_id =
          Some (borrowed_member w book_id member_data)) as Hm1
    by (rewrite Hd1; cbn; by rewrite lookup_insert_eq).
  assert (books (data w1) !! str book_id' =
          Some (lent_book member_id book_data)) as Hb1
    by (rewrite Hd1, Hstr; cbn; by rewrite lookup_insert_eq).
  unfold outcome. rewrite return_book_eq, Hm1, Hb1.
  cbn [fst snd data saved returned_document books members].
  split; [done|]. split.
  - eexists. rewrite Hstr, lookup_insert_eq. by repeat split.
  - eexists _, (BorrowRecord.mk book_id _ _).
    rewrite lookup_insert_eq. split; [reflexivity|].
    split; [|reflexivity]. cbn. apply list_elem_of_filter. split.
    + cbn. congruence.
    + apply elem_of_app. right. left.
Qed.

(** On [stocked]: the form lends book ["1"] and the book comes back as
    [1]. *)
Lemma respelled_return_leaves_entry_witness :
  let w := run (fresh tick) stocked in
  let w1 := snd (LibrarySystem.borrow_book (PyInt 1) (PyStr "1") w) in
  let outcome := LibrarySystem.return_book (PyInt 1) (PyInt 1) w1 in
  members (data w) !! str (PyInt 1) = Some ann_new ∧
  books (data w) !! str (PyStr "1") = Some book1_new ∧
  str (PyInt 1) = str (PyStr "1") ∧ PyInt 1 ≠ PyStr "1" ∧
  fst outcome = (true, "Book returned successfully").
Proof.
  intros w w1 outcome.
  assert (members (data w) !! str (PyInt 1) = Some ann_new) as Hm
    by (vm_compute; reflexivity).
  assert (books (data w) !! str (PyStr "1") = Some book1_new) as Hb
    by (vm_compute; reflexivity).
  assert (length (MemberDict.borrowed_books ann_new) < 3)%nat as Hlen
    by (simpl; lia).
  assert (PyInt 1 ≠ PyStr "1") as Hne by discriminate.
  split; [exact Hm|]. split; [exact Hb|]. split; [reflexivity|].
  split; [exact Hne|].
  exact (proj1 (respelled_return_leaves_entry w (PyInt 1) (PyStr "1")
                  (PyInt 1) ann_new book1_new Hm Hb eq_refl Hlen eq_refl
                  Hne)).
Defined.

(** X6. A successful return, and a successful borrow, file the member
    again with the same id, name and email, but with [created_at] set to
    the time of the call: the date the member joined is not kept. *)
Theorem member_refiled_with_new_date (w : World) (member_id book_id : pyval)
  (member_data : MemberDict.t) (book_data : BookDict.t) :
  members (data w) !! str member_id = Some member_data →
  books (data w) !! str book_id = Some book_data →
  (∃ member_data',
     members (data (snd (LibrarySystem.return_book member_id book_id w)))
       !! str member_id = Some member_data' ∧
     same_member member_data member_data' ∧
     MemberDict.created_at member_data' = clock w (clock_reads w)) ∧
  (BookDict.is_available book_data = true →
   (length (MemberDict.borrowed_books member_data) < 3)%nat →
   ∃ member_data',
     members (data (snd (LibrarySystem.borrow_book member_id book_id w)))
       !! str member_id = Some member_data' ∧
     same_member member_data member_data' ∧
     MemberDict.created_at member_data' = clock w (clock_reads w)).
Proof.
  intros Hm Hb. split.
  - rewrite return_book_eq, Hm, Hb.
    cbn [snd data saved returned_document members].
    eexists. by rewrite lookup_insert_eq.
  - intros Hav Hlen. rewrite borrow_book_eq, Hm, Hb, Hav.
    apply Nat.ltb_lt in Hlen. rewrite Hlen.
    cbn [snd data saved borrowed_document members].
    eexists. by rewrite lookup_insert_eq.
Qed.

(** On [lent_to_ann]: Ann, filed at time 3 by her loan, returns the book
    at time 7. *)
Lemma member_refiled_with_new_date_witness :
  let w := run (fresh tick) lent_to_ann in
  let w' := snd (LibrarySystem.return_book (PyInt 1) (PyInt 1) w) in
  let ann := MemberDict.mk 1 "Ann" "ann@example.com" 3
               [BorrowRecord.mk (PyInt 1) 4 (5 + timedelta 14)] true in
  let book := BookDict.mk 1 "T" "A" "ISBN1" "General" false (PyInt 1) 0 in
  members (data w) !! str (PyInt 1) = Some ann ∧
  books (data w) !! str (PyInt 1) = Some book ∧
  ∃ ann', members (data w') !! str (PyInt 1) = Some ann' ∧
          same_member ann ann' ∧
          MemberDict.created_at ann' = clock w (clock_reads w).
Proof.
  intros w w' ann book.
  assert (members (data w) !! str (PyInt 1) = Some ann) as Hm
    by (vm_compute; reflexivity).
  assert (books (data w) !! str (PyInt 1) = Some book) as Hb
    by (vm_compute; reflexivity).
  split; [exact Hm|]. split; [exact Hb|].
  exact (proj1 (member_refiled_with_new_date w (PyInt 1) (PyInt 1) ann book
                  Hm Hb)).
Defined.

(** ** What every run keeps *)

Lemma reachable_step w c : reachable w → reachable (step w c).
Proof.
  intros (clock & cs & ->). exists clock, (cs ++ [c]).
  unfold run. by rewrite fold_left_app.
Qed.

Lemma reachable_run w cs : reachable w → reachable (run w cs).
Proof.
  revert w. induction cs as [|c cs IH]; intros w Hw; [done|].
  cbn [run fold_left]. by apply IH, reachable_step.
Qed.

Lemma can_borrow_more_current_step w c d :
  can_borrow_more_current (data w) → step_spec w c d →
  can_borrow_more_current d.
Proof.
  unfold can_borrow_more_current. intros Hcur Hs.
  step_cases Hs; unfold borrowed_document, returned_document;
    cbn [members]; try done; by apply map_Forall_insert_2.
Qed.

(** X7. In every store document reached by service calls, the stored
    [can_borrow_more] of each member is true exactly when the member's
    list has fewer than three entries. *)
Theorem can_borrow_more_is_current (w : World) :
  reachable w →
  ∀ k member_data, members (data w) !! k = Some member_data →
    (MemberDict.can_borrow_more member_data = true ↔
     (length (MemberDict.borrowed_books member_data) < 3)%nat).
Proof.
  intros Hw k member_data Hk.
  assert (can_borrow_more_current (data w)) as Hcur.
  { clear Hk. revert w Hw. apply reachable_document.
    - apply map_Forall_empty.
    - apply can_borrow_more_current_step. }
  rewrite (Hcur k member_data Hk). apply Nat.ltb_lt.
Qed.

(** On [three_loans]: Ann is at the limit and filed so. *)
Lemma can_borrow_more_is_current_witness :
  let w := run (fresh tick) three_loans in
  reachable w ∧ members (data w) !! "1" = Some ann_with_three ∧
  (MemberDict.can_borrow_more ann_with_three = true ↔
   (length (MemberDict.borrowed_books ann_with_three) < 3)%nat).
Proof.
  intros w.
  assert (reachable w) as Hw by (by exists tick, three_loans).
  assert (members (data w) !! "1" = Some ann_with_three) as Hk
    by (vm_compute; reflexivity).
  split; [exact Hw|]. split; [exact Hk|].
  exact (can_borrow_more_is_current w Hw "1" ann_with_three Hk).
Defined.

Lemma step_log_grows w c :
  ∃ l, transactions (data (step w c)) = transactions (data w) ++ l ∧
       (length l ≤ 1)%nat.
Proof.
  pose proof (step_sound w c) as Hs.
  remember (data (step w c)) as d eqn:Hd. clear Hd.
  step_cases Hs; unfold borrowed_document, returned_document;
    cbn [transactions];
    first [by eexists [_]
          |exists []; rewrite app_nil_r; split; [done|simpl; lia]].
Qed.

(** X8. The transaction log is only ever appended to: after any sequence
    of service calls, from any state, the log starts with the log as it
    was, and it has gained at most one entry per call. *)
Theorem log_append_only (w : World) (cs : list call) :
  ∃ l, transactions (data (run w cs)) = transactions (data w) ++ l ∧
       (length l ≤ length cs)%nat.
Proof.
  revert w. induction cs as [|c cs IH]; intros w.
  - exists []. rewrite app_nil_r. by split.
  - cbn [run fold_left]. destruct (IH (step w c)) as (l2 & Hl2 & Hn2).
    destruct (step_log_grows w c) as (l1 & Hl1 & Hn1).
    exists (l1 ++ l2). unfold run in Hl2. rewrite Hl2, Hl1, app_assoc.
    split; [done|]. rewrite length_app. simpl. lia.
Qed.

Lemma log_sound_kept (d d' : Document) (l : list Transaction.t) :
  (∀ k, is_Some (members d !! k) → is_Some (members d' !! k)) →
  (∀ k, is_Some (books d !! k) → is_Some (books d' !! k)) →
  Forall (λ t, (Transaction.type t = "borrow" ∨
                Transaction.type t = "return") ∧
               is_Some (members d !! str (Transaction.member_id t)) ∧
               is_Some (books d !! str (Transaction.book_id t))) l →
  Forall (λ t, (Transaction.type t = "borrow" ∨
                Transaction.type t = "return") ∧
               is_Some (members d' !! str (Transaction.member_id t)) ∧
               is_Some (books d' !! str (Transaction.book_id t))) l.
Proof.
  intros Hmem Hbook Hl. eapply Forall_impl; [exact Hl|].
  intros t (Hty & Hm & Hb). auto.
Qed.

Lemma is_Some_insert_kept {V} (m : gmap string V) (i k : string) (x : V) :
  is_Some (m !! k) → is_Some (<[i := x]> m !! k).
Proof. intros Hk. apply lookup_insert_is_Some'. by right. Qed.

Lemma log_sound_step w c d :
  log_sound (data w) → step_spec w c d → log_sound d.
Proof.
  unfold log_sound. intros Hlog Hs.
  step_cases Hs; unfold borrowed_document, returned_document;
    cbn [transactions]; try done.
  - eapply log_sound_kept; [| |exact Hlog]; cbn [books members]; auto.
    intros k. apply is_Some_insert_kept.
  - eapply log_sound_kept; [| |exact Hlog]; cbn [books members]; auto.
    intros k. apply is_Some_insert_kept.
  - apply Forall_app. split.
    + eapply log_sound_kept; [| |exact Hlog]; cbn [books members];
        intros k; apply is_Some_insert_kept.
    + apply Forall_singleton. cbn. rewrite !lookup_insert_eq.
      split; [by left|]. by split.
  - apply Forall_app. split.
    + eapply log_sound_kept; [| |exact Hlog]; cbn [books members];
        intros k; apply is_Some_insert_kept.
    + apply Forall_singleton. cbn. rewrite !lookup_insert_eq.
      split; [by right|]. by split.
Qed.

(** X9. In every store document reached by service calls, every entry
    of the log has type ['borrow'] or ['return'] and names a member and a
    book that are on file. *)
Theorem log_names_records_on_file (w : World) :
  reachable w →
  ∀ t, t ∈ transactions (data w) →
    (Transaction.type t = "borrow" ∨ Transaction.type t = "return") ∧
    is_Some (members (data w) !! str (Transaction.member_id t)) ∧
    is_Some (books (data w) !! str (Transaction.book_id t)).
Proof.
  intros Hw t Ht.
  assert (log_sound (data w)) as Hlog.
  { clear Ht. revert w Hw. apply reachable_document.
    - apply Forall_nil_2.
    - apply log_sound_step. }
  unfold log_sound in Hlog. rewrite Forall_forall in Hlog. by apply Hlog.
Qed.

(** On [lent_to_ann]: the one entry of the log. *)
Lemma log_names_records_on_file_witness :
  let w := run (fresh tick) lent_to_ann in
  let t := Transaction.mk "borrow" (PyInt 1) (PyInt 1) 6 in
  reachable w ∧ t ∈ transactions (data w) ∧
  is_Some (members (data w) !! str (Transaction.member_id t)).
Proof.
  intros w t.
  assert (reachable w) as Hw by (by exists tick, lent_to_ann).
  assert (t ∈ transactions (data w)) as Ht
    by (replace (transactions (data w)) with [t]
          by (vm_compute; reflexivity); left).
  split; [exact Hw|]. split; [exact Ht|].
  exact (proj1 (proj2 (log_names_records_on_file w Hw t Ht))).
Defined.

(** ** Ids and keys of the catalogue *)

Section IdsInUse.

Context {V : Type} (id_of : V → Z).

Lemma ids_in_use_empty : ids_in_use id_of ∅ 1.
Proof.
  split; [lia|]. split.
  - intros k v Hk. by rewrite lookup_empty in Hk.
  - intros z Hz. lia.
Qed.

Lemma ids_in_use_add (collection : gmap string V) (n : Z) (v : V) :
  id_of v = n → ids_in_use id_of collection n →
  ids_in_use id_of (<[str (PyInt n) := v]> collection) (n + 1).
Proof.
  intros Hid (Hn & Hfiled & Hall). split; [lia|]. split.
  - intros k x Hk. apply lookup_insert_Some in Hk as [[<- <-]|[_ Hk]].
    + rewrite Hid. split; [done|lia].
    + destruct (Hfiled k x Hk) as [-> Hx]. split; [done|lia].
  - intros z Hz. apply lookup_insert_is_Some'.
    destruct (decide (z = n)) as [->|Hzn]; [by left|].
    right. apply Hall. lia.
Qed.

Lemma ids_in_use_update (collection : gmap string V) (n : Z)
  (k : string) (v v' : V) :
  collection !! k = Some v → id_of v' = id_of v →
  ids_in_use id_of collection n →
  ids_in_use id_of (<[k := v']> collection) n.
Proof.
  intros Hk Hid (Hn & Hfiled & Hall). split; [done|]. split.
  - intros k' x Hk'. apply lookup_insert_Some in Hk' as [[<- <-]|[_ Hk']].
    + rewrite Hid. by apply Hfiled.
    + by apply Hfiled.
  - intros z Hz. by apply is_Some_insert_kept, Hall.
Qed.

(** The key of the next id is free. *)
Lemma ids_in_use_next_free (collection : gmap string V) (n : Z) :
  ids_in_use id_of collection n → collection !! str (PyInt n) = None.
Proof.
  intros (_ & Hfiled & _).
  destruct (collection !! str (PyInt n)) as [v|] eqn:Hk; [|done].
  destruct (Hfiled _ v Hk) as [E Hv]. apply str_int_inj in E. lia.
Qed.

Lemma ids_in_use_keys (collection : gmap string V) (n : Z) :
  ids_in_use id_of collection n → keys_are_ids collection.
Proof.
  intros (_ & Hfiled & _) k v Hk.
  destruct (Hfiled k v Hk) as [-> _]. rewrite int_str. by eexists.
Qed.

(** Counting again from the keys gives the counter back. *)
Lemma ids_in_use_next_id (collection : gmap string V) (n : Z) :
  ids_in_use id_of collection n →
  LibrarySystem._get_next_id collection = Ok n.
Proof.
  intros Hin.
  destruct (_get_next_id_spec collection (ids_in_use_keys _ _ Hin))
    as (n' & -> & Hnext).
  f_equal. destruct Hin as (Hn & Hfiled & Hall).
  destruct Hnext as [[-> ->]|(k & z & [v Hk] & Hint & -> & Hmax)].
  - destruct (decide (n = 1)) as [->|Hn1]; [done|].
    destruct (Hall 1) as [v Hv]; [lia|]. by rewrite lookup_empty in Hv.
  - destruct (Hfiled k v Hk) as [-> Hv].
    rewrite int_str in Hint. injection Hint as <-.
    destruct (Hall (n - 1)) as [v' Hv']; [lia|].
    specialize (Hmax (str (PyInt (n - 1))) (n - 1) (mk_is_Some _ _ Hv')
                     (int_str _)).
    lia.
Qed.

End IdsInUse.

Lemma catalogue_inv_step w c : catalogue_inv w → catalogue_inv (step w c).
Proof.
  intros [Hbooks Hmembers]. unfold catalogue_inv.
  rewrite step_next_book_id, step_next_member_id.
  pose proof (step_sound w c) as Hs.
  remember (data (step w c)) as d eqn:Hd. clear Hd.
  step_cases Hs; unfold borrowed_document, returned_document;
    cbn [books members]; try done.
  - split; [|done]. by apply ids_in_use_add.
  - split; [done|]. by apply ids_in_use_add.
  - split; by eapply ids_in_use_update.
  - split; by eapply ids_in_use_update.
Qed.

(** X10. In every state reached by service calls, the ids handed out are
    exactly 1 up to the counter, for books and for members: each record
    is filed under the rendering of its own [id], that id is at least 1
    and below the counter, and every id in that range is on file. *)
Theorem ids_filed_below_counters (w : World) :
  reachable w →
  (∀ k book_data, books (data w) !! k = Some book_data →
     k = str (PyInt (BookDict.id book_data)) ∧
     (1 ≤ BookDict.id book_data < _next_book_id w)%Z) ∧
  (∀ z, (1 ≤ z < _next_book_id w)%Z →
     is_Some (books (data w) !! str (PyInt z))) ∧
  (∀ k member_data, members (data w) !! k = Some member_data →
     k = str (PyInt (MemberDict.id member_data)) ∧
     (1 ≤ MemberDict.id member_data < _next_member_id w)%Z) ∧
  (∀ z, (1 ≤ z < _next_member_id w)%Z →
     is_Some (members (data w) !! str (PyInt z))).
Proof.
  intros Hw.
  assert (catalogue_inv w) as [(_ & Hb1 & Hb2) (_ & Hm1 & Hm2)].
  { revert w Hw. apply reachable_ind_inv.
    - intros clock. split; apply ids_in_use_empty.
    - apply catalogue_inv_step. }
  done.
Qed.

(** On [lent_to_ann]: Bob is member 2, below the counter 3. *)
Lemma ids_filed_below_counters_witness :
  let w := run (fresh tick) lent_to_ann in
  let bob := MemberDict.mk 2 "Bob" "bob@example.com" 2 [] true in
  reachable w ∧ members (data w) !! "2" = Some bob ∧
  "2" = str (PyInt (MemberDict.id bob)) ∧
  (1 ≤ MemberDict.id bob < _next_member_id w)%Z.
Proof.
  intros w bob.
  assert (reachable w) as Hw by (by exists tick, lent_to_ann).
  assert (members (data w) !! "2" = Some bob) as Hk
    by (vm_compute; reflexivity).
  split; [exact Hw|]. split; [exact Hk|].
  exact (proj1 (proj2 (proj2 (ids_filed_below_counters w Hw))) "2" bob Hk).
Defined.

Lemma reachable_catalogue_inv w : reachable w → catalogue_inv w.
Proof.
  revert w. apply reachable_ind_inv.
  - intros clock. split; apply ids_in_use_empty.
  - apply catalogue_inv_step.
Qed.

(** X11. A service constructed on the store file left by any sequence of
    calls starts with the document of the service that wrote it and with
    the same two counters: counting again from the keys loses nothing. *)
Theorem restart_recovers_state (w : World) :
  reachable w →
  ∀ clock',
    LibrarySystem.__init__ clock' (data_file w) =
    Ok (mkWorld clock' 0 (data_file w) (data w)
                (_next_book_id w) (_next_member_id w)).
Proof.
  intros Hw clock'. unfold LibrarySystem.__init__.
  rewrite (store_file_in_sync w Hw).
  destruct (reachable_catalogue_inv w Hw) as [Hbooks Hmembers].
  by rewrite (ids_in_use_next_id _ _ _ Hbooks),
             (ids_in_use_next_id _ _ _ Hmembers).
Qed.

(** On [lent_to_ann]: the counters come back as 2 and 3. *)
Lemma restart_recovers_state_witness :
  let w := run (fresh tick) lent_to_ann in
  reachable w ∧
  LibrarySystem.__init__ tick (data_file w) =
  Ok (mkWorld tick 0 (data_file w) (data w) 2 3).
Proof.
  intros w.
  assert (reachable w) as Hw by (by exists tick, lent_to_ann).
  split; [exact Hw|].
  exact (restart_recovers_state w Hw tick).
Defined.

Lemma same_book_trans a b c : same_book a b → same_book b c → same_book a c.
Proof. unfold same_book. intuition congruence. Qed.

Lemma same_member_trans a b c :
  same_member a b → same_member b c → same_member a c.
Proof. unfold same_member. intuition congruence. Qed.

Lemma records_kept_step w c :
  catalogue_inv w →
  (∀ k book_data, books (data w) !! k = Some book_data →
     ∃ book_data', books (data (step w c)) !! k = Some book_data' ∧
                   same_book book_data book_data') ∧
  (∀ k member_data, members (data w) !! k = Some member_data →
     ∃ member_data', members (data (step w c)) !! k = Some member_data' ∧
                     same_member member_data member_data').
Proof.
  intros [Hbooks Hmembers].
  pose proof (step_sound w c) as Hs.
  remember (data (step w c)) as d eqn:Hd. clear Hd.
  assert (∀ (coll : gmap string BookDict.t) k i x bk,
            coll !! k = Some bk → (i = k → same_book bk x) →
            ∃ bk', <[i := x]> coll !! k = Some bk' ∧ same_book bk bk')
    as Hbook_upd.
  { intros coll k i x bk Hk Hsame.
    destruct (decide (i = k)) as [->|Hik].
    - exists x. rewrite lookup_insert_eq. auto.
    - exists bk. by rewrite lookup_insert_ne. }
  assert (∀ (coll : gmap string MemberDict.t) k i x mr,
            coll !! k = Some mr → (i = k → same_member mr x) →
            ∃ mr', <[i := x]> coll !! k = Some mr' ∧ same_member mr mr')
    as Hmember_upd.
  { intros coll k i x mr Hk Hsame.
    destruct (decide (i = k)) as [->|Hik].
    - exists x. rewrite lookup_insert_eq. auto.
    - exists mr. by rewrite lookup_insert_ne. }
  step_cases Hs; unfold borrowed_document, returned_document;
    cbn [books members]; (split; [intros k x Hk|intros k x Hk]);
    try (by exists x).
  - apply Hbook_upd; [done|]. intros <-.
    rewrite (ids_in_use_next_free _ _ _ Hbooks) in Hk. done.
  - apply Hmember_upd; [done|]. intros <-.
    rewrite (ids_in_use_next_free _ _ _ Hmembers) in Hk. done.
  - apply Hbook_upd; [done|]. intros <-. rewrite Hb in Hk.
    by injection Hk as <-.
  - apply Hmember_upd; [done|]. intros <-. rewrite Hm in Hk.
    by injection Hk as <-.
  - apply Hbook_upd; [done|]. intros <-. rewrite Hb in Hk.
    by injection Hk as <-.
  - apply Hmember_upd; [done|]. intros <-. rewrite Hm in Hk.
    by injection Hk as <-.
Qed.

(** X12. Nothing that is on file is ever deleted or replaced by another
    record: from any reached state, after any further calls, each book is
    still filed under its key with the same id, title, author, isbn,
    category and added date, and each member with the same id, name and
    email. In particular [add_book] and [add_member] never reuse a key. *)
Theorem records_kept (w : World) (cs : list call) :
  reachable w →
  (∀ k book_data, books (data w) !! k = Some book_data →
     ∃ book_data', books (data (run w cs)) !! k = Some book_data' ∧
                   same_book book_data book_data') ∧
  (∀ k member_data, members (data w) !! k = Some member_data →
     ∃ member_data', members (data (run w cs)) !! k = Some member_data' ∧
                     same_member member_data member_data').
Proof.
  revert w. induction cs as [|c cs IH]; intros w Hw.
  - split; intros k x Hk; by exists x.
  - cbn [run fold_left].
    destruct (records_kept_step w c (reachable_catalogue_inv w Hw))
      as [Hb1 Hm1].
    destruct (IH (step w c) (reachable_step w c Hw)) as [Hb2 Hm2].
    split; intros k x Hk.
    + destruct (Hb1 k x Hk) as (x1 & Hk1 & Hs1).
      destruct (Hb2 k x1 Hk1) as (x2 & Hk2 & Hs2).
      exists x2. split; [done|]. by eapply same_book_trans.
    + destruct (Hm1 k x Hk) as (x1 & Hk1 & Hs1).
      destruct (Hm2 k x1 Hk1) as (x2 & Hk2 & Hs2).
      exists x2. split; [done|]. by eapply same_member_trans.
Qed.

(** From [stocked], through a loan to Ann and three more books. *)
Lemma records_kept_witness :
  let w := run (fresh tick) stocked in
  let cs := [BorrowBook (PyInt 1) (PyInt 1);
             AddBook "T2" "A" "I2" "General";
             AddBook "T3" "A" "I3" "General"] in
  reachable w ∧ books (data w) !! "1" = Some book1_new ∧
  ∃ book_data', books (data (run w cs)) !! "1" = Some book_data' ∧
                same_book book1_new book_data'.
Proof.
  intros w cs.
  assert (reachable w) as Hw by (by exists tick, stocked).
  assert (books (data w) !! "1" = Some book1_new) as Hk
    by (vm_compute; reflexivity).
  split; [exact Hw|]. split; [exact Hk|].
  exact (proj1 (records_kept w cs Hw) "1" book1_new Hk).
Defined.

(** ** The entity classes *)

(** X13. A [Book] can be borrowed only while it is available: [borrow]
    answers whether it was, a second [borrow] is always refused and
    leaves the first borrower in place, [return_book] makes the book
    borrowable again and is idempotent, and undoes a [borrow] made from
    the shelf. *)
Theorem book_borrowed_once (self : Book.t) (m1 m2 : pyval) :
  let lent := snd (Book.borrow self m1) in
  fst (Book.borrow self m1) = Book._is_available self ∧
  Book._is_available lent = false ∧
  Book.borrow lent m2 = (false, lent) ∧
  fst (Book.borrow (Book.return_book self) m1) = true ∧
  Book._borrowed_by (snd (Book.borrow (Book.return_book self) m1)) = m1 ∧
  Book.return_book (snd (Book.borrow (Book.return_book self) m1)) =
    Book.return_book self ∧
  Book.return_book (Book.return_book self) = Book.return_book self.
Proof.
  destruct self as [i t a s c av by_ d]. unfold Book.borrow. cbn.
  destruct av; cbn; by repeat split.
Qed.

(** X14. The entity keeps flag and borrower in step as long as the
    borrower is a real id: [return_book] always does, [borrow] does when
    [member_id] is not [None], and [borrow(None)] on an available book
    leaves it unavailable with no borrower. *)
Theorem book_entity_flags (self : Book.t) (member_id : pyval) :
  flags_agree (Book.to_dict (Book.return_book self)) ∧
  (member_id ≠ PyNone → flags_agree (Book.to_dict self) →
   flags_agree (Book.to_dict (snd (Book.borrow self member_id)))) ∧
  (Book._is_available self = true →
   ¬ flags_agree (Book.to_dict (snd (Book.borrow self PyNone)))).
Proof.
  destruct self as [i t a s c av by_ d]. unfold flags_agree, Book.borrow.
  cbn. split; [|split].
  - by split.
  - intros Hm Hflags. destruct av; cbn; [by split|done].
  - intros ->. cbn. intros [Hno _]. by apply Hno.
Qed.

Lemma book_entity_flags_witness :
  let self := Book.mk 1 "T" "A" "ISBN1" "General" true PyNone 0 in
  PyInt 7 ≠ PyNone ∧ flags_agree (Book.to_dict self) ∧
  flags_agree (Book.to_dict (snd (Book.borrow self (PyInt 7)))).
Proof.
  intros self.
  assert (PyInt 7 ≠ PyNone) as Hm by discriminate.
  assert (flags_agree (Book.to_dict self)) as Hflags by (by split).
  split; [exact Hm|]. split; [exact Hflags|].
  exact (proj1 (proj2 (book_entity_flags self (PyInt 7))) Hm Hflags).
Defined.

Lemma member_borrow_book_eq (self : Member.t) (book_id : pyval) (w : World) :
  Member.borrow_book self book_id w =
  if (length (Member._borrowed_books self) <? Member._max_books self)%nat
  then
    ((true,
      Member.set_borrowed_books
        (Member._borrowed_books self ++
         [BorrowRecord.mk book_id (clock w (clock_reads w))
            (clock w (S (clock_reads w)) + timedelta 14)]) self),
     mkWorld (clock w) (S (S (clock_reads w))) (data_file w) (data w)
             (_next_book_id w) (_next_member_id w))
  else ((false, self), w).
Proof.
  unfold Member.borrow_book, Member.can_borrow.
  by destruct (length (Member._borrowed_books self) <?
               Member._max_books self)%nat.
Qed.

Lemma borrow_each_cons self b rest w :
  borrow_each self (b :: rest) w =
  let first := Member.borrow_book self b w in
  let others := borrow_each (snd (fst first)) rest (snd first) in
  ((fst (fst first) :: fst (fst others), snd (fst others)), snd others).
Proof.
  cbn [borrow_each]. unfold bind, ret.
  destruct (Member.borrow_book self b w) as [[ok self1] w1]. cbn [fst snd].
  by destruct (borrow_each self1 rest w1) as [[answers self'] w'].
Qed.

(** X15. A [Member] asked to borrow a list of books in turn accepts them
    until the list of loans is full and refuses all the others: the
    answers are [True] for as many books as there was room for, then
    [False]; the loans end at [_max_books] or at the old ones plus all
    the books asked for, whichever is smaller; the old loans stay at the
    front; and the limit itself is not changed. *)
Theorem member_borrows_up_to_limit (book_ids : list pyval) (self : Member.t)
  (w : World) :
  (length (Member._borrowed_books self) ≤ Member._max_books self)%nat →
  let room := (Member._max_books self -
               length (Member._borrowed_books self))%nat in
  let answers := fst (fst (borrow_each self book_ids w)) in
  let self' := snd (fst (borrow_each self book_ids w)) in
  answers = replicate (Nat.min (length book_ids) room) true ++
            replicate (length book_ids - room) false ∧
  length (Member._borrowed_books self') =
    Nat.min (length (Member._borrowed_books self) + length book_ids)
            (Member._max_books self) ∧
  Member._borrowed_books self `prefix_of` Member._borrowed_books self' ∧
  Member._max_books self' = Member._max_books self.
Proof.
  revert self w. induction book_ids as [|b rest IH]; intros self w Hle.
  - cbn. rewrite Nat.add_0_r, Nat.min_l by done. by repeat split.
  - cbv zeta. rewrite borrow_each_cons. cbv zeta.
    rewrite member_borrow_book_eq.
    destruct (length (Member._borrowed_books self) <?
              Member._max_books self)%nat eqn:Hroom; cbn [fst snd].
    + apply Nat.ltb_lt in Hroom.
      set (self1 := Member.set_borrowed_books _ self).
      set (w1 := mkWorld _ _ _ _ _ _).
      assert (length (Member._borrowed_books self1) =
              S (length (Member._borrowed_books self))) as Hlen1
        by (unfold self1; cbn; rewrite length_app; simpl; lia).
      assert (Member._max_books self1 = Member._max_books self) as Hmax1
        by reflexivity.
      destruct (IH self1 w1) as (Hans & Hlen & Hpre & Hmax); [lia|].
      rewrite Hans, Hlen, Hmax, Hlen1, Hmax1.
      split; [|split; [|split]].
      * replace (Nat.min (length (b :: rest))
                   (Member._max_books self -
                    length (Member._borrowed_books self)))
          with (S (Nat.min (length rest)
                     (Member._max_books self -
                      S (length (Member._borrowed_books self)))))
          by (cbn [length]; lia).
        cbn [replicate length app]. do 3 f_equal. lia.
      * cbn [length]. lia.
      * etrans; [|exact Hpre]. unfold self1. cbn. by apply prefix_app_r.
      * done.
    + apply Nat.ltb_ge in Hroom.
      destruct (IH self w) as (Hans & Hlen & Hpre & Hmax); [lia|].
      rewrite Hans, Hlen.
      split; [|split; [|split]]; try done.
      * replace (Member._max_books self -
                 length (Member._borrowed_books self))%nat with 0%nat
          by lia.
        rewrite !Nat.min_0_r, !Nat.sub_0_r. done.
      * simpl. lia.
Qed.

(** A new member asked for four books takes three. *)
Lemma member_borrows_up_to_limit_witness :
  let self := Member.mk 1 "John Doe" "john@example.com" 0 [] 3 in
  let ids := [PyInt 1; PyInt 2; PyInt 3; PyInt 4] in
  (length (Member._borrowed_books self) ≤ Member._max_books self)%nat ∧
  fst (fst (borrow_each self ids (fresh tick))) = [true; true; true; false].
Proof.
  intros self ids.
  assert (length (Member._borrowed_books self) ≤ Member._max_books self)%nat
    as Hle by (simpl; lia).
  split; [exact Hle|].
  exact (proj1 (member_borrows_up_to_limit ids self (fresh tick) Hle)).
Defined.

(** X16. [Member.return_book(b)] removes every loan of [b] and nothing
    else: no record of [b] is left, the records of other books stay in
    their order, doing it twice changes nothing more, and a member who
    did not hold [b] and had room for it is exactly as before once [b]
    has been borrowed and returned. *)
Theorem member_return_book_removes (self : Member.t) (book_id : pyval) :
  let self' := Member.return_book self book_id in
  (∀ r, r ∈ Member._borrowed_books self' →
        BorrowRecord.book_id r ≠ book_id) ∧
  filter (λ r, BorrowRecord.book_id r ≠ book_id)
         (Member._borrowed_books self) = Member._borrowed_books self' ∧
  Member._borrowed_books self' `sublist_of` Member._borrowed_books self ∧
  Member.return_book self' book_id = self' ∧
  ((∀ r, r ∈ Member._borrowed_books self →
         BorrowRecord.book_id r ≠ book_id) →
   Member.can_borrow self = true →
   ∀ w, Member.return_book
          (snd (fst (Member.borrow_book self book_id w))) book_id = self).
Proof.
  destruct self as [i n e c l m]. unfold Member.return_book. cbn.
  split; [|split; [|split; [|split]]].
  - intros r Hr. by apply list_elem_of_filter in Hr as [Hr _].
  - done.
  - apply sublist_filter.
  - unfold Member.set_borrowed_books. cbn. f_equal.
    apply filter_keeps_all. intros r Hr.
    by apply list_elem_of_filter in Hr as [Hr _].
  - intros Hnone Hroom w. rewrite member_borrow_book_eq.
    unfold Member.can_borrow in Hroom. cbn in Hroom |- *. rewrite Hroom.
    cbn. unfold Member.set_borrowed_books. cbn. f_equal.
    rewrite filter_app, filter_keeps_all by done.
    rewrite filter_cons_False, filter_nil by (cbn; tauto).
    apply app_nil_r.
Qed.

(** A new member borrows book 1 and returns it. *)
Lemma member_return_book_removes_witness :
  let self := Member.mk 1 "John Doe" "john@example.com" 0 [] 3 in
  (∀ r, r ∈ Member._borrowed_books self →
        BorrowRecord.book_id r ≠ PyInt 1) ∧
  Member.can_borrow self = true ∧
  Member.return_book
    (snd (fst (Member.borrow_book self (PyInt 1) (fresh tick)))) (PyInt 1) =
  self.
Proof.
  intros self.
  assert (∀ r, r ∈ Member._borrowed_books self →
               BorrowRecord.book_id r ≠ PyInt 1) as Hnone
    by (intros r Hr; by apply elem_of_nil in Hr).
  split; [exact Hnone|]. split; [reflexivity|].
  exact (proj2 (proj2 (proj2 (proj2
           (member_return_book_removes self (PyInt 1))))) Hnone eq_refl
           (fresh tick)).
Defined.

(** ** The pages *)

Lemma filter_values_length {A} (P : A → Prop) `{!∀ x, Decision (P x)}
  (m : gmap string A) :
  length (filter P (map_to_list m).*2) = size (filter (λ kv, P kv.2) m).
Proof.
  rewrite map_filter_alt, map_size_list_to_map.
  - induction (map_to_list m) as [|[k x] l IH]; [done|].
    cbn [fmap list_fmap]. rewrite !filter_cons. cbn [snd].
    destruct (decide (P x)); cbn [length]; by rewrite IH.
  - eapply sublist_NoDup; [apply (NoDup_fst_map_to_list m)|].
    apply fmap_sublist, sublist_filter.
Qed.

(** X17. The borrow page and the return page split the catalogue: the
    books offered for borrowing and the books offered for return have no
    key in common and together are all the books on file; showing either
    page changes nothing. *)
Theorem pages_split_catalogue (w : World) :
  ∃ available_books borrowed_books,
    App.borrow_book GET w = (Page available_books (members (data w)), w) ∧
    App.return_book GET w = (Page borrowed_books (members (data w)), w) ∧
    available_books ##ₘ borrowed_books ∧
    available_books ∪ borrowed_books = books (data w) ∧
    (∀ k book_data, available_books !! k = Some book_data ↔
       books (data w) !! k = Some book_data ∧
       BookDict.is_available book_data = true) ∧
    (∀ k book_data, borrowed_books !! k = Some book_data ↔
       books (data w) !! k = Some book_data ∧
       BookDict.is_available book_data = false).
Proof.
  eexists _, _. split; [reflexivity|]. split; [reflexivity|].
  split; [|split; [|split]].
  - apply (map_disjoint_filter_complement
             (λ kv : string * BookDict.t, BookDict.is_available kv.2 = true)).
  - apply (map_filter_union_complement
             (λ kv : string * BookDict.t, BookDict.is_available kv.2 = true)).
  - intros k bk. rewrite map_lookup_filter_Some. done.
  - intros k bk. rewrite map_lookup_filter_Some. cbn.
    destruct (BookDict.is_available bk); split; intros [Hk Hav];
      (split; [exact Hk|]); congruence.
Qed.

Lemma sizes_step w c :
  catalogue_inv w →
  Z.of_nat (size (books (data w))) = _next_book_id w - 1 →
  Z.of_nat (size (members (data w))) = _next_member_id w - 1 →
  Z.of_nat (size (books (data (step w c)))) = _next_book_id (step w c) - 1 ∧
  Z.of_nat (size (members (data (step w c)))) =
    _next_member_id (step w c) - 1.
Proof.
  intros [Hbooks Hmembers] Hsb Hsm.
  rewrite step_next_book_id, step_next_member_id.
  pose proof (step_sound w c) as Hs.
  remember (data (step w c)) as d eqn:Hd. clear Hd.
  step_cases Hs; unfold borrowed_document, returned_document;
    cbn [books members]; try done.
  - split; [|done]. rewrite map_size_insert_None; [lia|].
    by eapply ids_in_use_next_free.
  - split; [done|]. rewrite map_size_insert_None; [lia|].
    by eapply ids_in_use_next_free.
  - by rewrite !map_size_insert_Some.
  - by rewrite !map_size_insert_Some.
Qed.

(** X18. The figures of the home page: showing it changes nothing; the
    number of available books is the number of books the borrow page
    offers and never exceeds the total; and in a state reached by service
    calls the totals are the ids handed out so far, one less than each
    counter. *)
Theorem index_figures (w : World) :
  ∃ total_books available_books total_members,
    App.index w = ((total_books, available_books, total_members), w) ∧
    available_books =
      size (filter (λ kv : string * BookDict.t,
                      BookDict.is_available kv.2 = true) (books (data w))) ∧
    (available_books ≤ total_books)%nat ∧
    (reachable w →
     Z.of_nat total_books = _next_book_id w - 1 ∧
     Z.of_nat total_members = _next_member_id w - 1).
Proof.
  eexists _, _, _. split; [reflexivity|].
  rewrite filter_values_length. split; [done|]. split.
  - apply map_size_filter.
  - intros Hw.
    enough (Z.of_nat (size (books (data w))) = _next_book_id w - 1 ∧
            Z.of_nat (size (members (data w))) = _next_member_id w - 1 ∧
            catalogue_inv w) as (Hsb & Hsm & _) by done.
    revert w Hw.
    apply (reachable_ind_inv
             (λ w, Z.of_nat (size (books (data w))) = _next_book_id w - 1 ∧
                   Z.of_nat (size (members (data w))) =
                     _next_member_id w - 1 ∧ catalogue_inv w)).
    + intros clock. split; [done|]. split; [done|].
      split; apply ids_in_use_empty.
    + intros w c (Hsb & Hsm & Hcat).
      destruct (sizes_step w c Hcat Hsb Hsm) as [Hsb' Hsm'].
      split; [done|]. split; [done|]. by apply catalogue_inv_step.
Qed.

(** On [three_loans]: four books on file, and the counter at 5. *)
Lemma index_figures_witness :
  let w := run (fresh tick) three_loans in
  reachable w ∧
  ∃ total_books available_books total_members,
    App.index w = ((total_books, available_books, total_members), w) ∧
    Z.of_nat total_books = _next_book_id w - 1.
Proof.
  intros w.
  assert (reachable w) as Hw by (by exists tick, three_loans).
  split; [exact Hw|].
  destruct (index_figures w) as (tb & ab & tm & Hres & _ & _ & Hreach).
  exists tb, ab, tm. split; [exact Hres|exact (proj1 (Hreach Hw))].
Defined.

(** X19. The borrow form works on text: the two fields are used as keys
    as they are, the message is flashed as ['success'] exactly when both
    keys are on file, the book is available and the member holds fewer
    than three books, and as ['error'] otherwise; after a success the
    book's [borrowed_by] and the [book_id] of the new loan are the text
    of the fields, not integers. *)
Theorem borrow_form_works_on_text (w : World) (member_id book_id : string) :
  ∃ message category w',
    App.borrow_book (POST member_id book_id) w =
      (Flash message category, w') ∧
    (category = "success" ∨ category = "error") ∧
    (category = "success" ↔
     ∃ member_data book_data,
       members (data w) !! member_id = Some member_data ∧
       books (data w) !! book_id = Some book_data ∧
       BookDict.is_available book_data = true ∧
       (length (MemberDict.borrowed_books member_data) < 3)%nat) ∧
    (category = "success" →
     ∃ book_data' member_data' r,
       books (data w') !! book_id = Some book_data' ∧
       BookDict.borrowed_by book_data' = PyStr member_id ∧
       members (data w') !! member_id = Some member_data' ∧
       last (MemberDict.borrowed_books member_data') = Some r ∧
       BorrowRecord.book_id r = PyStr book_id).
Proof.
  unfold App.borrow_book, bind, ret. rewrite borrow_book_eq.
  cbn [str].
  destruct (members (data w) !! member_id) as [mr|] eqn:Hm.
  2: { eexists _, _, _. split; [reflexivity|]. cbn [fst snd].
       split; [by right|]. split; [|done]. split; [done|].
       by intros (? & ? & ? & _). }
  destruct (books (data w) !! book_id) as [bk|] eqn:Hb.
  2: { eexists _, _, _. split; [reflexivity|]. cbn [fst snd].
       split; [by right|]. split; [|done]. split; [done|].
       by intros (? & ? & _ & ? & _). }
  destruct (BookDict.is_available bk) eqn:Hav.
  2: { eexists _, _, _. split; [reflexivity|]. cbn [fst snd].
       split; [by right|]. split; [|done]. split; [done|].
       intros (? & bk' & _ & [= <-] & Hav' & _). congruence. }
  destruct (length (MemberDict.borrowed_books mr) <? 3)%nat eqn:Hlen.
  - eexists _, _, _. split; [reflexivity|]. cbn [fst snd].
    split; [by left|]. split.
    + split; [|done]. intros _. exists mr, bk.
      by apply Nat.ltb_lt in Hlen.
    + intros _. eexists _, _, _.
      cbn [data saved borrowed_document books members str].
      rewrite !lookup_insert_eq. split; [reflexivity|].
      split; [reflexivity|]. split; [reflexivity|].
      cbn. by rewrite last_snoc.
  - eexists _, _, _. split; [reflexivity|]. cbn [fst snd].
    split; [by right|]. split; [|done]. split; [done|].
    intros (mr' & ? & [= <-] & _ & _ & Hlt).
    apply Nat.ltb_lt in Hlt. congruence.
Qed.

Lemma reachable_within_limit w : reachable w → within_limit (data w).
Proof.
  revert w. apply reachable_document.
  - apply map_Forall_empty.
  - apply within_limit_step.
Qed.

(** X20. The JSON view of a member's books never changes the state; in
    a state reached by service calls it answers with the member's list,
    of at most three records, for an id that has been handed out, and
    with the empty list for any other number. *)
Theorem member_books_api (w : World) (member_id : Z) :
  reachable w →
  ∃ l, App.get_member_books member_id w = (l, w) ∧
       (length l ≤ 3)%nat ∧
       ((1 ≤ member_id < _next_member_id w)%Z →
        ∃ member_data,
          members (data w) !! str (PyInt member_id) = Some member_data ∧
          l = MemberDict.borrowed_books member_data) ∧
       (¬ (1 ≤ member_id < _next_member_id w)%Z → l = []).
Proof.
  intros Hw. unfold App.get_member_books, DataManager.get_member, bind, get,
    ret.
  destruct (reachable_catalogue_inv w Hw) as [_ (_ & Hfiled & Hall)].
  pose proof (reachable_within_limit w Hw) as Hlim.
  destruct (members (data w) !! str (PyInt member_id)) as [mr|] eqn:Hm.
  - exists (MemberDict.borrowed_books mr). split; [done|].
    split; [exact (Hlim _ _ Hm)|]. split.
    + intros _. by exists mr.
    + intros Hout. destruct (Hfiled _ _ Hm) as [E Hin].
      apply str_int_inj in E. subst member_id. done.
  - exists []. split; [done|]. split; [simpl; lia|]. split; [|done].
    intros Hin. destruct (Hall member_id Hin) as [mr Hmr]. congruence.
Qed.

(** On [three_loans]: the answer for a number not handed out. *)
Lemma member_books_api_witness :
  let w := run (fresh tick) three_loans in
  reachable w ∧
  ∃ l, App.get_member_books 2 w = (l, w) ∧ (length l ≤ 3)%nat.
Proof.
  intros w.
  assert (reachable w) as Hw by (by exists tick, three_loans).
  split; [exact Hw|].
  destruct (member_books_api w 2 Hw) as (l & Hres & Hlen & _).
  exists l. split; [exact Hres|exact Hlen].
Defined.

(** ** Loans and lists *)

Lemma loans_listed_step w c :
  catalogue_inv w → loans_listed (data w) → loans_listed (data (step w c)).
Proof.
  intros [Hbooks Hmembers] Hloans.
  pose proof (step_sound w c) as Hs.
  remember (data (step w c)) as d eqn:Hd. clear Hd.
  step_cases Hs; unfold loans_listed, borrowed_document, returned_document;
    cbn [books members]; try done.
  - intros kb x Hk Hno.
    apply lookup_insert_Some in Hk as [[_ <-]|[_ Hk]]; [done|].
    by apply Hloans.
  - intros kb x Hk Hno.
    destruct (Hloans kb x Hk Hno) as (mr & r & Hmr & Hr & Hkb).
    exists mr, r. split; [|done]. rewrite lookup_insert_ne; [done|].
    intros E. rewrite <- E in Hmr.
    rewrite (ids_in_use_next_free _ _ _ Hmembers) in Hmr. done.
  - intros kb x Hk Hno.
    apply lookup_insert_Some in Hk as [[<- <-]|[Hkb Hk]].
    + eexists _, (BorrowRecord.mk b _ _). cbn [lent_book BookDict.borrowed_by
        BookDict.set_borrowed_by].
      rewrite lookup_insert_eq. split; [reflexivity|]. split; [|done].
      cbn. apply elem_of_app. right. left.
    + destruct (Hloans kb x Hk Hno) as (mr' & r & Hmr & Hr & Hr').
      destruct (decide (str m = str (BookDict.borrowed_by x))) as [E|E].
      * rewrite <- E, Hm in Hmr. injection Hmr as <-.
        eexists _, r. rewrite <- E, lookup_insert_eq.
        split; [reflexivity|]. split; [|done].
        cbn. apply elem_of_app. by left.
      * exists mr', r. by rewrite lookup_insert_ne.
  - intros kb x Hk Hno.
    apply lookup_insert_Some in Hk as [[_ <-]|[Hkb Hk]]; [done|].
    destruct (Hloans kb x Hk Hno) as (mr' & r & Hmr & Hr & Hr').
    destruct (decide (str m = str (BookDict.borrowed_by x))) as [E|E].
    + rewrite <- E, Hm in Hmr. injection Hmr as <-.
      eexists _, r. rewrite <- E, lookup_insert_eq.
      split; [reflexivity|]. split; [|done].
      cbn. apply list_elem_of_filter. split; [|done].
      cbn. intros Eb. apply Hkb. by rewrite <- Hr', Eb.
    + exists mr', r. by rewrite lookup_insert_ne.
Qed.

(** X21. In every state reached by service calls, whoever made the
    returns, a book that is not available is in the list of the member
    it is lent to: the record filed under [str(borrowed_by)] exists and
    holds an entry whose [book_id] renders as the book's key. *)
Theorem books_out_are_listed (w : World) :
  reachable w →
  ∀ kb book_data,
    books (data w) !! kb = Some book_data →
    BookDict.is_available book_data = false →
    ∃ member_data r,
      members (data w) !! str (BookDict.borrowed_by book_data) =
        Some member_data ∧
      r ∈ MemberDict.borrowed_books member_data ∧
      str (BorrowRecord.book_id r) = kb.
Proof.
  intros Hw.
  enough (catalogue_inv w ∧ loans_listed (data w)) as [_ Hloans] by done.
  revert w Hw. apply reachable_ind_inv.
  - intros clock. split; [split; apply ids_in_use_empty|].
    intros kb x Hk. cbn in Hk. by rewrite lookup_empty in Hk.
  - intros w c [Hcat Hloans]. split.
    + by apply catalogue_inv_step.
    + by apply loans_listed_step.
Qed.

(** On [lent_to_ann]: book 1 is out and Ann lists it. *)
Lemma books_out_are_listed_witness :
  let w := run (fresh tick) lent_to_ann in
  let book := BookDict.mk 1 "T" "A" "ISBN1" "General" false (PyInt 1) 0 in
  reachable w ∧ books (data w) !! "1" = Some book ∧
  BookDict.is_available book = false ∧
  ∃ member_data r,
    members (data w) !! str (BookDict.borrowed_by book) = Some member_data ∧
    r ∈ MemberDict.borrowed_books member_data ∧
    str (BorrowRecord.book_id r) = "1".
Proof.
  intros w book.
  assert (reachable w) as Hw by (by exists tick, lent_to_ann).
  assert (books (data w) !! "1" = Some book) as Hk
    by (vm_compute; reflexivity).
  split; [exact Hw|]. split; [exact Hk|]. split; [reflexivity|].
  exact (books_out_are_listed w Hw "1" book Hk eq_refl).
Defined.

(** X22. The converse needs the discipline of C5: in a store reached by
    calls that name each book by one value and return a book on loan only
    for the member holding it, every entry of a member's list names a
    book that is out and lent to that member. *)
Theorem listed_books_are_out (clock : nat → datetime) (cs : list call) :
  one_spelling (book_ids cs) → disciplined (fresh clock) cs →
  ∀ k member_data r,
    members (data (run (fresh clock) cs)) !! k = Some member_data →
    r ∈ MemberDict.borrowed_books member_data →
    ∃ book_data,
      books (data (run (fresh clock) cs)) !! str (BorrowRecord.book_id r) =
        Some book_data ∧
      BookDict.is_available book_data = false ∧
      str (BookDict.borrowed_by book_data) = k.
Proof.
  intros Hsp Hdisc k member_data r Hk Hr.
  destruct (holdings_inv_run (book_ids cs) Hsp cs (fresh clock))
    as (_ & Hheld & _); [done|done|apply holdings_inv_fresh|].
  by destruct (Hheld k member_data r Hk Hr) as [_ Hbook].
Qed.

(** On [lent_in_turn]: the one entry of Bob's list. *)
Lemma listed_books_are_out_witness :
  let member_data :=
    MemberDict.mk 2 "Bob" "bob@example.com" 9
      [BorrowRecord.mk (PyInt 1) 10 (11 + timedelta 14)] true in
  let r := BorrowRecord.mk (PyInt 1) 10 (11 + timedelta 14) in
  one_spelling (book_ids lent_in_turn) ∧
  disciplined (fresh tick) lent_in_turn ∧
  members (data (run (fresh tick) lent_in_turn)) !! "2" = Some member_data ∧
  r ∈ MemberDict.borrowed_books member_data ∧
  ∃ book_data,
    books (data (run (fresh tick) lent_in_turn)) !! str (BorrowRecord.book_id r)
      = Some book_data ∧
    BookDict.is_available book_data = false ∧
    str (BookDict.borrowed_by book_data) = "2".
Proof.
  intros member_data r.
  assert (one_spelling (book_ids lent_in_turn)) as Hsp
    by (repeat constructor).
  assert (disciplined (fresh tick) lent_in_turn) as Hdisc
    by (vm_compute; repeat split).
  assert (members (data (run (fresh tick) lent_in_turn)) !! "2" =
          Some member_data) as Hk by (vm_compute; reflexivity).
  assert (r ∈ MemberDict.borrowed_books member_data) as Hr by left.
  split; [exact Hsp|]. split; [exact Hdisc|]. split; [exact Hk|].
  split; [exact Hr|].
  exact (listed_books_are_out tick lent_in_turn Hsp Hdisc "2" member_data r
           Hk Hr).
Defined.

(** ** Adding records *)

(** X23. In a state reached by service calls, [add_book] files one new
    book and touches nothing else: the book has the fields given, is
    available with no borrower, and is dated by the clock; every book
    already on file, every member and the log are as before; and the
    store file holds the new document. [add_member] does the same for a
    member, who starts with no loans. *)
Theorem add_files_one_record (w : World) :
  reachable w →
  (∀ title author isbn category,
     let w' := snd (LibrarySystem.add_book title author isbn category w) in
     books (data w') !! str (PyInt (_next_book_id w)) =
       Some (BookDict.mk (_next_book_id w) title author isbn category true
               PyNone (clock w (clock_reads w))) ∧
     (∀ k, k ≠ str (PyInt (_next_book_id w)) →
           books (data w') !! k = books (data w) !! k) ∧
     books (data w) !! str (PyInt (_next_book_id w)) = None ∧
     members (data w') = members (data w) ∧
     transactions (data w') = transactions (data w) ∧
     data_file w' = Some (JsonText (data w'))) ∧
  (∀ name email,
     let w' := snd (LibrarySystem.add_member name email w) in
     members (data w') !! str (PyInt (_next_member_id w)) =
       Some (MemberDict.mk (_next_member_id w) name email
               (clock w (clock_reads w)) [] true) ∧
     (∀ k, k ≠ str (PyInt (_next_member_id w)) →
           members (data w') !! k = members (data w) !! k) ∧
     members (data w) !! str (PyInt (_next_member_id w)) = None ∧
     books (data w') = books (data w) ∧
     transactions (data w') = transactions (data w) ∧
     data_file w' = Some (JsonText (data w'))).
Proof.
  intros Hw. destruct (reachable_catalogue_inv w Hw) as [Hbooks Hmembers].
  split.
  - intros title author isbn category. cbn zeta. rewrite add_book_eq.
    cbn [snd data books members transactions data_file].
    rewrite lookup_insert_eq. split; [done|]. split.
    + intros k Hk. by rewrite lookup_insert_ne.
    + split; [by eapply ids_in_use_next_free|done].
  - intros name email. cbn zeta. rewrite add_member_eq.
    cbn [snd data books members transactions data_file].
    rewrite lookup_insert_eq. split; [done|]. split.
    + intros k Hk. by rewrite lookup_insert_ne.
    + split; [by eapply ids_in_use_next_free|done].
Qed.

(** On [lent_to_ann]: a second book is added under the key of 2. *)
Lemma add_files_one_record_witness :
  let w := run (fresh tick) lent_to_ann in
  let w' := snd (LibrarySystem.add_book "T2" "A" "I2" "General" w) in
  reachable w ∧ members (data w') = members (data w).
Proof.
  intros w w'.
  assert (reachable w) as Hw by (by exists tick, lent_to_ann).
  split; [exact Hw|].
  destruct (proj1 (add_files_one_record w Hw) "T2" "A" "I2" "General")
    as (_ & _ & _ & Hmembers & _).
  exact Hmembers.
Defined.
